(** * New-Repo-Task: the template-materialization pipeline of
    [New-Repo-Task/index.ts], embedded and verified.

  The script reads a scaffold request from the environment, creates a
  repository, optionally replaces its topics, fetches the files of one
  template variant from a template repository, renders them and writes them
  to the new repository.

  Strings are byte strings.  The GitHub REST API is an oracle that answers
  each request as a function of the exchanges so far; every request and its
  answer is recorded in the world, next to the console output. *)

From Stdlib Require Import ZArith Ascii DecimalString.
From stdpp Require Import gmap strings list fin_maps.

Local Open Scope Z_scope.

(** ** ECMAScript string operations used by the script *)

Module Js.

(** [String.prototype.startsWith]. *)
Fixpoint startsWith (s pre : string) : bool :=
  match pre, s with
  | EmptyString, _ => true
  | String _ _, EmptyString => false
  | String a pre', String b s' =>
      if decide (a = b) then startsWith s' pre' else false
  end.

(** [String.prototype.endsWith]: some suffix of [s] is [suf]. *)
Fixpoint endsWith (s suf : string) : bool :=
  if decide (s = suf) then true
  else match s with
       | EmptyString => false
       | String _ s' => endsWith s' suf
       end.

(** [String.prototype.toLowerCase] on the ASCII letters (the variants of the
    script, [Bun] and [Elysia], are ASCII). *)
Definition lower_ascii (c : ascii) : ascii :=
  let n := nat_of_ascii c in
  if (Nat.leb 65 n && Nat.leb n 90)%bool then ascii_of_nat (n + 32) else c.

Fixpoint toLowerCase (s : string) : string :=
  match s with
  | EmptyString => EmptyString
  | String c s' => String (lower_ascii c) (toLowerCase s')
  end.

(** [String.prototype.split] with a one-character separator: the list of the
    segments between separators, never empty. *)
Fixpoint split (sep : ascii) (s : string) : list string :=
  match s with
  | EmptyString => [EmptyString]
  | String c s' =>
      if decide (c = sep) then EmptyString :: split sep s'
      else match split sep s' with
           | seg :: segs => String c seg :: segs
           | [] => [String c EmptyString]
           end
  end.

(** [Array.prototype.join]. *)
Fixpoint join (sep : string) (l : list string) : string :=
  match l with
  | [] => ""
  | [x] => x
  | x :: rest => x +:+ sep +:+ join sep rest
  end.

(** Truthiness of an optional string: [undefined] and the empty string are
    falsy. *)
Definition truthy (o : option string) : bool :=
  match o with
  | Some s => negb (bool_decide (s = ""))
  | None => false
  end.

(** [a || b] on optional strings. *)
Definition or_else (a b : option string) : option string :=
  if truthy a then a else b.

(** A value interpolated in a template literal. *)
Definition show_opt (o : option string) : string :=
  match o with Some s => s | None => "undefined" end.

Definition show_Z (z : Z) : string := NilZero.string_of_int (Z.to_int z).

Definition show_nat (n : nat) : string := NilZero.string_of_uint (Nat.to_uint n).

End Js.

(** ** Node's POSIX [path] module, on the segments of a path *)

Module Path.

Abbreviation slash := "/"%char.

Definition segments (p : string) : list string := Js.split slash p.

(** Drops the empty strings at the head of a list. *)
Fixpoint strip_empty (l : list string) : list string :=
  match l with
  | [] => []
  | x :: rest => if decide (x = "") then strip_empty rest else l
  end.

(** The segments of [p] without the trailing slashes, split into the last
    component and what precedes it. *)
Definition unsnoc_component (p : string) : option (list string * string) :=
  match strip_empty (rev (segments p)) with
  | [] => None
  | b :: rinit => Some (rev rinit, b)
  end.

(** [path.basename(p)]: the last component, trailing slashes ignored. *)
Definition basename (p : string) : string :=
  match unsnoc_component p with
  | Some (_, b) => b
  | None => ""
  end.

(** [path.dirname(p)]: the text before the slash that precedes the last
    component; ["."] when there is none, the root for a root-level entry. *)
Definition dirname (p : string) : string :=
  match unsnoc_component p with
  | None => if decide (p = "") then "." else "/"
  | Some ([], _) => "."
  | Some (init, _) =>
      let pre := Js.join "/" init in
      if decide (pre = "") then "/"
      else if decide (pre = "/") then "//"
      else pre
  end.

(** One step of [normalizeString]: [acc] is the stack of kept segments, the
    last one first. *)
Definition normalize_step (allowAboveRoot : bool) (acc : list string) (seg : string)
  : list string :=
  if decide (seg = "") then acc
  else if decide (seg = ".") then acc
  else if decide (seg = "..") then
    match acc with
    | top :: rest =>
        if decide (top = "..") then (if allowAboveRoot then ".." :: acc else acc)
        else rest
    | [] => if allowAboveRoot then [".."] else []
    end
  else seg :: acc.

Definition normalizeString (p : string) (allowAboveRoot : bool) : string :=
  Js.join "/" (rev (fold_left (normalize_step allowAboveRoot) (segments p) [])).

(** [path.normalize(p)]. *)
Definition normalize (p : string) : string :=
  if decide (p = "") then "."
  else
    let isAbsolute := Js.startsWith p "/" in
    let trailingSeparator := Js.endsWith p "/" in
    let res := normalizeString p (negb isAbsolute) in
    if decide (res = "") then
      (if isAbsolute then "/" else if trailingSeparator then "./" else ".")
    else
      let res' := if trailingSeparator then res +:+ "/" else res in
      if isAbsolute then "/" +:+ res' else res'.

(** [path.join(...args)]: the non-empty arguments joined by a slash, then
    normalized. *)
Definition join (args : list string) : string :=
  match filter (λ a, a ≠ "") args with
  | [] => "."
  | parts => normalize (Js.join "/" parts)
  end.

End Path.

(** ** Data model *)

(** A completed JavaScript computation: a value, or a thrown error. *)
Inductive JsError :=
| Error (message : string)
| TypeError (message : string)
| RequestError (status : Z) (message : string)
| TemplateError (message : string).

Inductive Completion (A : Type) :=
| Return (a : A)
| Throw (e : JsError).
Arguments Return {A} a.
Arguments Throw {A} e.

(** An object containing the team that will own the repository. *)
Record RepoTeam := { team_name : string; team_description : string }.

(** The value of [RepoTeams[key]]: an own property of the table, a member
    inherited from [Object.prototype], or [undefined]. *)
Inductive TeamLookup :=
| KnownTeam (t : RepoTeam)
| InheritedMember (key : string)
| NoTeam.

(** The input for creating the repo. *)
Record UserInput := {
  repoName : string;
  repoTeam : TeamLookup;
  repoType : string;
  repoOwner : string;
  repoTopics : option (list string);
  repoDescription : option string;
  templateRepoName : string
}.

Record RenderedTemplateFile := { out_path : string; out_content : string }.

(** The classification of a contents entry. *)
Inductive EntryType := dir | file | submodule | symlink.

(** What [repos.getContent] returns for one path (the URL fields, [sha] and
    [size], which the script never reads, are left out). *)
Record GetContentsData := {
  entry_type : EntryType;
  entry_name : string;
  entry_path : string;
  entry_content : option string
}.

(** A node of the recursive git tree listing. *)
Record TreeNode := { node_type : option string; node_path : option string }.

(** One exchange with the GitHub REST API: the request and its answer. *)
Inductive Event :=
| GetTree (owner repo tree_sha : string) (res : Completion (Z * list TreeNode))
| GetContent (owner repo path : string) (res : Completion (Z * GetContentsData))
| CreateInOrg (name org : string) (description : option string) (res : Completion Z)
| ReplaceAllTopics (names : list string) (repo owner : string) (res : Completion Z)
| CreateOrUpdateFileContents (message content path repo owner : string)
    (res : Completion Z).

Inductive Level := LDebug | LLog | LError.

(** A line of console output. *)
Inductive LogLine :=
| Line (lvl : Level) (text : string)
| ErrorObject (e : JsError)
| TopicsObject (topics : option (list string))
| Uncaught (e : JsError).

(** The world a run acts on: the exchanges with the API and the console, the
    most recent entry first. *)
Record World := { events : list Event; console : list LogLine }.

(** What the script does not define itself: [Buffer]'s base64 codec, the
    Nunjucks engine and the answers of the GitHub API, each answer a function
    of the exchanges so far. *)
Record Platform := {
  decodeBase64 : string → string;
  encodeBase64 : string → string;
  renderString : string → UserInput → Completion string;
  api_getTree : list Event → string → string → string → Completion (Z * list TreeNode);
  api_getContent : list Event → string → string → string → Completion (Z * GetContentsData);
  api_createInOrg : list Event → string → string → option string → Completion Z;
  api_replaceAllTopics : list Event → list string → string → string → Completion Z;
  api_createOrUpdateFileContents :
    list Event → string → string → string → string → string → Completion Z
}.

(** ** Computations: state passing with exceptions *)

Definition M (A : Type) : Type := World → Completion A * World.

Definition ret {A} (a : A) : M A := λ w, (Return a, w).

Definition throw {A} (e : JsError) : M A := λ w, (Throw e, w).

Definition bind {A B} (m : M A) (k : A → M B) : M B :=
  λ w, match m w with
       | (Return a, w') => k a w'
       | (Throw e, w') => (Throw e, w')
       end.

#[global] Instance M_ret : MRet M := @ret.
#[global] Instance M_bind : MBind M := λ A B k m, bind m k.

(** [try { m } catch (error) { h error }]. *)
Definition try_catch {A} (m : M A) (h : JsError → M A) : M A :=
  λ w, match m w with
       | (Return a, w') => (Return a, w')
       | (Throw e, w') => h e w'
       end.

Definition lift {A} (c : Completion A) : M A := λ w, (c, w).

Definition print (l : LogLine) : M unit :=
  λ w, (Return tt, {| events := events w; console := l :: console w |}).

Definition exchange {A} (answer : list Event → Completion A)
  (record : Completion A → Event) : M A :=
  λ w, let res := answer (events w) in
       (res, {| events := record res :: events w; console := console w |}).

(** ** The script *)

(** A map of the teams that can own a repository. *)
Definition RepoTeams : gmap string RepoTeam :=
  list_to_map
    [ ("Backend", {| team_name := "Backend";
                     team_description := "The team responsible for backend services." |});
      ("Design", {| team_name := "Design";
                    team_description := "The team responsible for design." |});
      ("DevOps", {| team_name := "DevOps";
                    team_description := "The team responsible for DevOps." |});
      ("Frontend", {| team_name := "Frontend";
                      team_description := "The team responsible for frontend services." |});
      ("Platform", {| team_name := "Platform";
                      team_description := "The team responsible for the platform." |});
      ("QA", {| team_name := "QA";
                team_description := "The team responsible for QA." |}) ].

(** The enumerated team names, [RepoTeamName]. *)
Definition RepoTeamName : list string :=
  ["Platform"; "Frontend"; "Backend"; "DevOps"; "QA"; "Design"].

(** The property names every object literal inherits from [Object.prototype]. *)
Definition object_prototype_keys : list string :=
  ["constructor"; "__defineGetter__"; "__defineSetter__"; "hasOwnProperty";
   "__lookupGetter__"; "__lookupSetter__"; "isPrototypeOf"; "propertyIsEnumerable";
   "toString"; "valueOf"; "__proto__"; "toLocaleString"].

(** [RepoTeams[key]]. *)
Definition lookupTeam (key : string) : TeamLookup :=
  match RepoTeams !! key with
  | Some t => KnownTeam t
  | None => if bool_decide (key ∈ object_prototype_keys) then InheritedMember key
            else NoTeam
  end.

(** [team.name], for the value of a table lookup: reading a property of
    [undefined] throws; an inherited function has its own name, the inherited
    [__proto__] object has none. *)
Definition teamName (t : TeamLookup) : Completion (option string) :=
  match t with
  | KnownTeam r => Return (Some (team_name r))
  | InheritedMember key =>
      Return (if bool_decide (key = "constructor") then Some "Object"
              else if bool_decide (key = "__proto__") then None
              else Some key)
  | NoTeam => Throw (TypeError "Cannot read properties of undefined (reading 'name')")
  end.

(** [process.env]. *)
Abbreviation Env := (gmap string string).

(** Maps to the GITHUB_TOKEN or GH_PAT secret, if it exists. *)
Definition ApiToken (env : Env) : option string :=
  Js.or_else (env !! "GITHUB_TOKEN") (env !! "GH_PAT").

(** Gets the user input from the environment variables set by the workflow. *)
Definition getInput (env : Env) : Completion UserInput :=
  let templateRepoName :=
    default "" (Js.or_else (env !! "TEMPLATE_REPO_NAME")
                           (Some "Blog-GitHub-API-Automation-Template")) in
  let repoName := env !! "REPO_NAME" in
  if negb (Js.truthy repoName) then
    Throw (Error "REPO_NAME is a required environment variable.")
  else
  let repoTeamName := env !! "REPO_TEAM" in
  if negb (Js.truthy repoTeamName) then
    Throw (Error "REPO_TEAM is a required environment variable.")
  else
  let repoType := env !! "REPO_TYPE" in
  if negb (Js.truthy repoType) then
    Throw (Error "REPO_TYPE is a required environment variable.")
  else
  let repoOwner := Js.or_else (env !! "GITHUB_REPOSITORY_OWNER") (env !! "REPO_OWNER") in
  if negb (Js.truthy repoOwner) then
    Throw (Error "REPO_OWNER is a required environment variable.")
  else
  let repoTopics := Js.split ","%char <$> env !! "REPO_TOPICS" in
  let repoDescription := env !! "REPO_DESCRIPTION" in
  Return {| repoName := default "" repoName;
            repoTeam := lookupTeam (default "" repoTeamName);
            repoType := default "" repoType;
            repoOwner := default "" repoOwner;
            repoTopics := repoTopics;
            repoDescription := repoDescription;
            templateRepoName := templateRepoName |}.

(** Converts a filename from a Nunjucks template to the filename it should be
    in the new repository. *)
Definition getNewFilename (filename : string) : string :=
  if decide (filename = "README.njk") then "README.md"
  else if decide (filename = "package.njk") then "package.json"
  else filename.

Section Script.

Context (P : Platform).

(** Attempts to render the provided Nunjucks template: a rendered file, if the
    file has content, otherwise [undefined]. *)
Definition renderFileData (f : GetContentsData) (input : UserInput)
  : M (option RenderedTemplateFile) :=
  if Js.truthy (entry_content f) then
    let content := default "" (entry_content f) in
    let filename := Path.basename (entry_path f) in
    let fileDir := Path.dirname (entry_path f) in
    print (Line LDebug ("[renderFileData] Rendering file: " +:+ filename));;
    print (Line LDebug ("[renderFileData] File Directory: " +:+ fileDir));;
    if Js.endsWith (entry_path f) ".njk" then
      let newFilename := getNewFilename filename in
      let fileContent := decodeBase64 P content in
      renderedContent ← lift (renderString P fileContent input);
      mret (Some {| out_path := Path.join [fileDir; newFilename];
                    out_content := renderedContent |})
    else
      mret (Some {| out_path := entry_path f;
                    out_content := decodeBase64 P content |})
  else mret None.

(** The test of the loop of [getTemplateFiles]: the node is a blob, has a path,
    and is in the directory for the repo type. *)
Definition inTemplateDir (input : UserInput) (treeNode : TreeNode) : bool :=
  bool_decide (node_type treeNode = Some "blob")
  && Js.truthy (node_path treeNode)
  && Js.startsWith (default "" (node_path treeNode))
       (Js.toLowerCase (repoType input) +:+ "/").

Definition getContent (input : UserInput) (path : string) : M (Z * GetContentsData) :=
  exchange
    (λ hist, api_getContent P hist (repoOwner input) (templateRepoName input) path)
    (GetContent (repoOwner input) (templateRepoName input) path).

(** The [for (const treeNode of data.tree)] loop; [renderedTemplateFiles] is
    the array the loop pushes to. *)
Fixpoint fetchTree (input : UserInput) (tree : list TreeNode)
  (renderedTemplateFiles : list RenderedTemplateFile) : M (list RenderedTemplateFile) :=
  match tree with
  | [] => mret renderedTemplateFiles
  | treeNode :: rest =>
      if inTemplateDir input treeNode then
        let path := default "" (node_path treeNode) in
        fileContent ← getContent input path;
        print (Line LDebug ("[getTemplateFiles] Template File Content Status: "
                            +:+ Js.show_Z fileContent.1));;
        if negb (bool_decide (fileContent.1 = 200)) then
          throw (Error ("Template file not found: " +:+ path))
        else
          renderedTemplateFile ← renderFileData fileContent.2 input;
          fetchTree input rest
            (match renderedTemplateFile with
             | Some r => renderedTemplateFiles ++ [r]
             | None => renderedTemplateFiles
             end)
      else fetchTree input rest renderedTemplateFiles
  end.

(** The [try] block of [getTemplateFiles]. *)
Definition getTemplateFiles_try (input : UserInput) : M (list RenderedTemplateFile) :=
  res ← exchange
    (λ hist, api_getTree P hist (repoOwner input) (templateRepoName input) "main")
    (GetTree (repoOwner input) (templateRepoName input) "main");
  if negb (bool_decide (res.1 = 200)) then
    throw (Error "Template file tree(s) not found")
  else
    print (Line LDebug ("[getTemplateFiles] Template Files Tree Status: "
                        +:+ Js.show_Z res.1));;
    fetchTree input res.2 [].

(** Gets all the files from the template specified in the user input, renders
    them and returns them as an array of rendered files. *)
Definition getTemplateFiles (input : UserInput) : M (list RenderedTemplateFile) :=
  try_catch (getTemplateFiles_try input)
    (λ error,
       print (Line LError
                "[ERROR][getTemplateFiles] Error caught when getting template files:");;
       print (ErrorObject error);;
       mret []).

(** The guard of the topics replacement:
    [userInput.repoTopics && userInput.repoTopics[0] !== '']. *)
Definition topicsProvided (input : UserInput) : bool :=
  match repoTopics input with
  | Some topics => negb (bool_decide (topics !! 0%nat = Some ""))
  | None => false
  end.

(** The loop that adds the rendered template files to the new repository. *)
Fixpoint addFiles (input : UserInput) (templateFiles : list RenderedTemplateFile)
  (successfulAdditions : list string) : M (list string) :=
  match templateFiles with
  | [] => mret successfulAdditions
  | f :: rest =>
      print (Line LLog ("[main] Adding file: " +:+ out_path f));;
      let message := "feat: added " +:+ out_path f +:+ " from template repo" in
      let content := encodeBase64 P (out_content f) in
      status ← exchange
        (λ hist, api_createOrUpdateFileContents P hist message content (out_path f)
                   (repoName input) (repoOwner input))
        (CreateOrUpdateFileContents message content (out_path f)
           (repoName input) (repoOwner input));
      print (Line LLog ("[main] CreateOrUpdateFile Status: " +:+ Js.show_Z status));;
      addFiles input rest
        (if bool_decide (status = 201) then successfulAdditions ++ [out_path f]
         else successfulAdditions)
  end.

(** The last steps of the top-level [try] block: the template files are
    fetched and added to the new repository. *)
Definition populate (userInput : UserInput) : M unit :=
  templateFiles ← getTemplateFiles userInput;
  successfulAdditions ← addFiles userInput templateFiles [];
  print (Line LLog ("[main] Successful Additions Length: "
                    +:+ Js.show_nat (length successfulAdditions)));;
  print (Line LLog ("[main] Template Files Length: "
                    +:+ Js.show_nat (length templateFiles))).

(** The first debug message of the run. *)
Definition debugLogMsgs (userInput : UserInput) (team : option string) : list string :=
  [ String.app "[main] Creating a new repository with the following details:"
               (String "010" "");
    String "009" ("- Name: " +:+ repoName userInput);
    String "009" ("- Team: " +:+ Js.show_opt team);
    String "009" ("- Type: " +:+ repoType userInput);
    String "009" ("- Owner: " +:+ repoOwner userInput);
    String "009" ("- Topics: " +:+ Js.show_opt (Js.join ", " <$> repoTopics userInput));
    String "009" ("- Description: " +:+ Js.show_opt (repoDescription userInput)) ].

(** The steps of the top-level [try] block that follow the resolution of the
    input: the repository is created, its topics are replaced when the user
    provided some, and it is populated. *)
Definition scaffold (userInput : UserInput) : M unit :=
  team ← lift (teamName (repoTeam userInput));
  print (Line LDebug (Js.join (String "010" "") (debugLogMsgs userInput team)));;
  createRepoRes ← exchange
    (λ hist, api_createInOrg P hist (repoName userInput) (repoOwner userInput)
               (repoDescription userInput))
    (CreateInOrg (repoName userInput) (repoOwner userInput) (repoDescription userInput));
  print (Line LLog ("[main] Repo Create Status: " +:+ Js.show_Z createRepoRes));;
  print (Line LLog "[main] UserInput Repo Topics:");;
  print (TopicsObject (repoTopics userInput));;
  print (Line LLog "[main] UserInput Description");;
  print (Line LLog (Js.show_opt (repoDescription userInput)));;
  (if topicsProvided userInput then
     topicsRes ← exchange
       (λ hist, api_replaceAllTopics P hist (default [] (repoTopics userInput))
                  (repoName userInput) (repoOwner userInput))
       (ReplaceAllTopics (default [] (repoTopics userInput))
          (repoName userInput) (repoOwner userInput));
     print (Line LLog ("[main] Topics Response Status: " +:+ Js.show_Z topicsRes))
   else mret tt);;
  populate userInput.

(** The top-level [try { ... } catch (error) { ... }] of the script. *)
Definition main (env : Env) : M unit :=
  try_catch (userInput ← lift (getInput env); scaffold userInput)
    (λ error,
       print (Line LError "[ERROR][main] Error caught when creating and initializing repo");;
       print (ErrorObject error)).

Definition initial : World := {| events := []; console := [] |}.

(** One run of the script as a process: the exit code and the final world.
    The check of the access token is outside the [try] block, so its error is
    uncaught and the runtime ends the process with code 1; when the module
    runs to its end the process ends with code 0. *)
Definition run (env : Env) : Z * World :=
  if negb (Js.truthy (ApiToken env)) then
    (1, {| events := [];
           console := [Uncaught (Error
             "GitHub Access Token not found in environment, must be set as GITHUB_TOKEN or GH_PAT.")] |})
  else
    match main env initial with
    | (Return _, w) => (0, w)
    | (Throw _, w) => (1, w)
    end.

End Script.

(** ** The earlier fetcher of [New-Repo-Task/index.ts]

    The file also holds the previous version of the script, whose
    [getTemplateFiles] lists the directory of the variant with one request
    and decodes its entries, without a [try] block of its own. *)

#[global] Instance EntryType_eq_dec : EqDecision EntryType.
Proof. solve_decision. Defined.

Module Draft.

(** The input of the earlier version has no template repository name. *)
Record UserInput := {
  repoName : string;
  repoTeam : TeamLookup;
  repoType : string;
  repoOwner : string;
  repoTopics : option (list string);
  repoDescription : option string
}.

Record DecodedTemplateFile := { path : string; content : string }.

(** The one request of the earlier fetcher: the content of a directory. *)
Inductive Event :=
| ListDirectory (owner repo dir : string) (res : Completion (Z * list GetContentsData)).

Record World := { events : list Event; console : list LogLine }.

Record Platform := {
  decodeBase64 : string → string;
  renderString : string → UserInput → Completion string;
  api_getContent : list Event → string → string → string
                   → Completion (Z * list GetContentsData)
}.

Section Script.

Context (P : Platform).

(** The [for (const file of filesData)] loop; [decodedTemplateFiles] is the
    array it pushes to. *)
Fixpoint decodeFiles (input : UserInput) (filesData : list GetContentsData)
  (decodedTemplateFiles : list DecodedTemplateFile)
  : Completion (list DecodedTemplateFile) :=
  match filesData with
  | [] => Return decodedTemplateFiles
  | f :: rest =>
      if bool_decide (entry_type f = file) then
        if Js.endsWith (entry_path f) ".njk" && Js.truthy (entry_content f) then
          match renderString P (decodeBase64 P (default "" (entry_content f))) input with
          | Return rendered =>
              decodeFiles input rest
                (decodedTemplateFiles
                 ++ [{| path := entry_path f; content := rendered |}])
          | Throw e => Throw e
          end
        else if Js.truthy (entry_content f) then
          decodeFiles input rest
            (decodedTemplateFiles
             ++ [{| path := entry_path f;
                    content := decodeBase64 P (default "" (entry_content f)) |}])
        else decodeFiles input rest decodedTemplateFiles
      else decodeFiles input rest decodedTemplateFiles
  end.

Definition getTemplateFiles (input : UserInput) (w : World)
  : Completion (list DecodedTemplateFile) * World :=
  let templateFiles :=
    api_getContent P (events w) (repoOwner input) "Blog-GitHub-API-Automation-Template"
      (Js.toLowerCase (repoType input)) in
  let w1 :=
    {| events := ListDirectory (repoOwner input) "Blog-GitHub-API-Automation-Template"
                   (Js.toLowerCase (repoType input)) templateFiles :: events w;
       console := console w |} in
  match templateFiles with
  | Throw e => (Throw e, w1)
  | Return (status, filesData) =>
      if negb (bool_decide (status = 200)) then
        (Throw (Error "Template files not found"), w1)
      else
        (decodeFiles input filesData [],
         {| events := events w1;
            console := Line LLog ("[DEBUG] Template Files Status: " +:+ Js.show_Z status)
                       :: console w1 |})
  end.

End Script.

(** What the earlier fetcher makes of one entry it keeps. *)
Definition decoded_from (P : Platform) (input : UserInput) (f : GetContentsData)
  (out : DecodedTemplateFile) : Prop :=
  path out = entry_path f
  ∧ ∃ c, entry_content f = Some c ∧ c ≠ ""
         ∧ if Js.endsWith (entry_path f) ".njk"
           then renderString P (decodeBase64 P c) input = Return (content out)
           else content out = decodeBase64 P c.

(** The entries the earlier fetcher keeps: files that have content. *)
Definition kept (f : GetContentsData) : bool :=
  bool_decide (entry_type f = file) && Js.truthy (entry_content f).

End Draft.

(** ** A concrete platform, to run the script on *)

Module Sample.

(** The value of a character of the base64 alphabet (standard and URL-safe);
    other characters are skipped, as [Buffer.from] does. *)
Definition sextet (c : ascii) : option N :=
  let n := N_of_ascii c in
  if (N.leb 65 n && N.leb n 90)%bool then Some (n - 65)%N
  else if (N.leb 97 n && N.leb n 122)%bool then Some (n - 71)%N
  else if (N.leb 48 n && N.leb n 57)%bool then Some (n + 4)%N
  else if (N.eqb n 43 || N.eqb n 45)%bool then Some 62%N
  else if (N.eqb n 47 || N.eqb n 95)%bool then Some 63%N
  else None.

Fixpoint sextets (s : string) : list N :=
  match s with
  | EmptyString => []
  | String c s' =>
      match sextet c with
      | Some v => v :: sextets s'
      | None => sextets s'
      end
  end.

Definition byte (n : N) : ascii := ascii_of_N (n mod 256).

Fixpoint bytes_of_sextets (l : list N) : string :=
  match l with
  | a :: b :: c :: d :: rest =>
      let n := (a * 262144 + b * 4096 + c * 64 + d)%N in
      String (byte (n / 65536)) (String (byte (n / 256)) (String (byte n)
        (bytes_of_sextets rest)))
  | [a; b; c] =>
      let n := (a * 1024 + b * 16 + c / 4)%N in
      String (byte (n / 256)) (String (byte n) EmptyString)
  | [a; b] => String (byte (a * 4 + b / 16)) EmptyString
  | _ => EmptyString
  end.

Definition decode (s : string) : string := bytes_of_sextets (sextets s).

Definition digit (n : N) : ascii :=
  let n := (n mod 64)%N in
  if N.ltb n 26 then ascii_of_N (n + 65)
  else if N.ltb n 52 then ascii_of_N (n + 71)
  else if N.ltb n 62 then ascii_of_N (n - 4)
  else if N.eqb n 62 then "+"%char else "/"%char.

Fixpoint encode (s : string) : string :=
  match s with
  | String a (String b (String c rest)) =>
      let n := (N_of_ascii a * 65536 + N_of_ascii b * 256 + N_of_ascii c)%N in
      String (digit (n / 262144)) (String (digit (n / 4096)) (String (digit (n / 64))
        (String (digit n) (encode rest))))
  | String a (String b EmptyString) =>
      let n := (N_of_ascii a * 1024 + N_of_ascii b * 4)%N in
      String (digit (n / 4096)) (String (digit (n / 64)) (String (digit n) "="))
  | String a EmptyString =>
      let n := (N_of_ascii a * 16)%N in
      String (digit (n / 64)) (String (digit n) "==")
  | EmptyString => EmptyString
  end.

(** A small template engine: every [{{ repoName }}] is replaced by the name of
    the repository; a template with a block tag is refused. *)
Fixpoint substitute (name : string) (skip : nat) (t : string) : string :=
  match t with
  | EmptyString => EmptyString
  | String c t' =>
      match skip with
      | S k => substitute name k t'
      | O => if Js.startsWith t "{{ repoName }}" then name +:+ substitute name 13 t'
             else String c (substitute name 0 t')
      end
  end.

Fixpoint hasBlockTag (t : string) : bool :=
  match t with
  | EmptyString => false
  | String _ t' => Js.startsWith t "{%" || hasBlockTag t'
  end.

Definition render (t : string) (input : UserInput) : Completion string :=
  if hasBlockTag t then Throw (TemplateError "unknown block tag")
  else Return (substitute (repoName input) 0 t).

(** The files of the template repository. *)
Definition blob (p : string) : TreeNode := {| node_type := Some "blob"; node_path := Some p |}.
Definition tree (p : string) : TreeNode := {| node_type := Some "tree"; node_path := Some p |}.

Definition listing : list TreeNode :=
  [ tree "bun"; blob "bun/README.njk"; blob "bun/package.njk"; tree "bun/src";
    blob "bun/src/index.ts"; blob "bun/LICENSE"; blob "bun/.gitkeep";
    tree "elysia"; blob "elysia/README.njk" ].

Definition contents : gmap string string :=
  list_to_map
    [ ("bun/README.njk", "IyB7eyByZXBvTmFtZSB9fQ==");
      ("bun/package.njk", "e25hbWU6IHt7IHJlcG9OYW1lIH19fQ==");
      ("bun/src/index.ts", "Y29uc29sZS5sb2coMSk=");
      ("bun/LICENSE", "TUlU");
      ("bun/.gitkeep", "");
      ("elysia/README.njk", "eyUgYmFkICV9") ].

Definition fileEntry (p : string) (c : option string) : GetContentsData :=
  {| entry_type := file; entry_name := Path.basename p; entry_path := p;
     entry_content := c |}.

Definition getContent (hist : list Event) (owner repo path : string)
  : Completion (Z * GetContentsData) :=
  match contents !! path with
  | Some c => Return (200, fileEntry path (Some c))
  | None => Throw (RequestError 404 "Not Found")
  end.

Definition platform : Platform :=
  {| decodeBase64 := decode;
     encodeBase64 := encode;
     renderString := render;
     api_getTree := λ _ _ _ _, Return (200, listing);
     api_getContent := getContent;
     api_createInOrg := λ _ _ _ _, Return 201;
     api_replaceAllTopics := λ _ _ _ _, Return 200;
     api_createOrUpdateFileContents := λ _ _ _ _ _ _, Return 201 |}.

(** The same platform with an organization that refuses the creation. *)
Definition refusing : Platform :=
  {| decodeBase64 := decode;
     encodeBase64 := encode;
     renderString := render;
     api_getTree := λ _ _ _ _, Return (200, listing);
     api_getContent := getContent;
     api_createInOrg := λ _ _ _ _, Throw (RequestError 422 "name already exists on this account");
     api_replaceAllTopics := λ _ _ _ _, Return 200;
     api_createOrUpdateFileContents := λ _ _ _ _ _ _, Return 201 |}.

(** The same platform with a template repository that lost one file after the
    listing was made. *)
Definition missingFile : Platform :=
  {| decodeBase64 := decode;
     encodeBase64 := encode;
     renderString := render;
     api_getTree := λ _ _ _ _, Return (200, listing);
     api_getContent := λ hist owner repo path,
       if decide (path = "bun/src/index.ts") then Throw (RequestError 404 "Not Found")
       else getContent hist owner repo path;
     api_createInOrg := λ _ _ _ _, Return 201;
     api_replaceAllTopics := λ _ _ _ _, Return 200;
     api_createOrUpdateFileContents := λ _ _ _ _ _ _, Return 201 |}.

Definition env : Env :=
  list_to_map
    [ ("GH_PAT", "ghp_token"); ("REPO_NAME", "foo"); ("REPO_TEAM", "Platform");
      ("REPO_TYPE", "Bun"); ("REPO_OWNER", "liatrio"); ("REPO_TOPICS", "") ].

(** The same environment with a team that is not one of the enumerated names,
    and with a property name of [Object.prototype] as the team. *)
Definition env_marketing : Env := <["REPO_TEAM" := "Marketing"]> env.
Definition env_constructor : Env := <["REPO_TEAM" := "constructor"]> env.

(** The same environment with two topics. *)
Definition env_topics : Env := <["REPO_TOPICS" := "bun,starter"]> env.

Definition input : UserInput :=
  {| repoName := "foo";
     repoTeam := KnownTeam {| team_name := "Platform";
                              team_description := "The team responsible for the platform." |};
     repoType := "Bun";
     repoOwner := "liatrio";
     repoTopics := Some [""];
     repoDescription := None;
     templateRepoName := "Blog-GitHub-API-Automation-Template" |}.

(** The sample request for the other variant, whose template the sample
    engine refuses. *)
Definition input_elysia : UserInput :=
  {| repoName := "foo";
     repoTeam := KnownTeam {| team_name := "Platform";
                              team_description := "The team responsible for the platform." |};
     repoType := "Elysia";
     repoOwner := "liatrio";
     repoTopics := Some [""];
     repoDescription := None;
     templateRepoName := "Blog-GitHub-API-Automation-Template" |}.

(** A platform for the earlier fetcher, with a directory of four entries. *)
Definition draftInput : Draft.UserInput :=
  {| Draft.repoName := "foo"; Draft.repoTeam := NoTeam; Draft.repoType := "Bun";
     Draft.repoOwner := "liatrio"; Draft.repoTopics := None;
     Draft.repoDescription := None |}.

Definition directory : list GetContentsData :=
  [ {| entry_type := dir; entry_name := "src"; entry_path := "bun/src";
       entry_content := None |};
    fileEntry "bun/README.njk" (Some "IyB7eyByZXBvTmFtZSB9fQ==");
    fileEntry "bun/.gitkeep" (Some "");
    fileEntry "bun/LICENSE" (Some "TUlU") ].

Definition draftPlatform : Draft.Platform :=
  {| Draft.decodeBase64 := decode;
     Draft.renderString := λ t i, Return (substitute (Draft.repoName i) 0 t);
     Draft.api_getContent := λ _ _ _ _, Return (200, directory) |}.

End Sample.

(** ** Vocabulary of the statements *)

(** The character [c] occurs in [s]. *)
Fixpoint occurs (c : ascii) (s : string) : bool :=
  match s with
  | EmptyString => false
  | String a s' => bool_decide (a = c) || occurs c s'
  end.

(** The name of an entry of a git tree: not empty, without a slash, and
    neither ["."] nor [".."]. *)
Definition component (s : string) : Prop :=
  s ≠ "" ∧ occurs Path.slash s = false ∧ s ≠ "." ∧ s ≠ "..".

(** The world after the two debug lines [renderFileData] prints for a file
    that has content. *)
Definition announced (f : GetContentsData) (w : World) : World :=
  {| events := events w;
     console :=
       Line LDebug ("[renderFileData] File Directory: " +:+ Path.dirname (entry_path f))
       :: Line LDebug ("[renderFileData] Rendering file: " +:+ Path.basename (entry_path f))
       :: console w |}.

(** An answer of the API with the success status 200. *)
Definition succeeded {A} (res : Completion (Z * A)) : bool :=
  match res with
  | Return (status, _) => bool_decide (status = 200)
  | Throw _ => false
  end.

(** The exchange is a tree listing or a content fetch that failed or did not
    report success. *)
Definition fetch_failed (ev : Event) : bool :=
  match ev with
  | GetTree _ _ _ res => negb (succeeded res)
  | GetContent _ _ _ res => negb (succeeded res)
  | _ => false
  end.

Definition is_topics (ev : Event) : bool :=
  match ev with
  | ReplaceAllTopics _ _ _ _ => true
  | _ => false
  end.

(** The rendered file [out] comes from the tree node [n]: the node is a blob
    under the directory of the variant, its content was fetched with success
    in one of the exchanges [evs], the entry fetched has content, and [out] is
    its rendering. *)
Definition rendered_from (P : Platform) (input : UserInput) (evs : list Event)
  (n : TreeNode) (out : RenderedTemplateFile) : Prop :=
  node_type n = Some "blob"
  ∧ ∃ p data,
      node_path n = Some p
      ∧ Js.startsWith p (Js.toLowerCase (repoType input) +:+ "/") = true
      ∧ GetContent (repoOwner input) (templateRepoName input) p (Return (200, data)) ∈ evs
      ∧ Js.truthy (entry_content data) = true
      ∧ ∀ w, (renderFileData P data input w).1 = Return (Some out).

(** The world once the repository is created with the status [st], before
    the test on the topics. *)
Definition after_creation (input : UserInput) (team : option string) (st : Z)
  (w : World) : World :=
  {| events := CreateInOrg (repoName input) (repoOwner input) (repoDescription input)
                 (Return st) :: events w;
     console :=
       [ Line LLog (Js.show_opt (repoDescription input));
         Line LLog "[main] UserInput Description";
         TopicsObject (repoTopics input);
         Line LLog "[main] UserInput Repo Topics:";
         Line LLog ("[main] Repo Create Status: " +:+ Js.show_Z st);
         Line LDebug (Js.join (String "010" "") (debugLogMsgs input team)) ]
       ++ console w |}.

(** The required variables are set and not empty. *)
Definition required_present (env : Env) : bool :=
  Js.truthy (env !! "REPO_NAME") && Js.truthy (env !! "REPO_TEAM")
  && Js.truthy (env !! "REPO_TYPE")
  && Js.truthy (Js.or_else (env !! "GITHUB_REPOSITORY_OWNER") (env !! "REPO_OWNER")).

(** ** Vocabulary of the further statements *)

Definition is_creation (ev : Event) : bool :=
  match ev with
  | CreateInOrg _ _ _ _ => true
  | _ => false
  end.

Definition is_fetch (ev : Event) : bool :=
  match ev with
  | GetTree _ _ _ _ | GetContent _ _ _ _ => true
  | _ => false
  end.

Definition is_write (ev : Event) : bool :=
  match ev with
  | CreateOrUpdateFileContents _ _ _ _ _ _ => true
  | _ => false
  end.

(** The request was answered by an error. *)
Definition threw (ev : Event) : bool :=
  match ev with
  | GetTree _ _ _ (Throw _) | GetContent _ _ _ (Throw _) | CreateInOrg _ _ _ (Throw _)
  | ReplaceAllTopics _ _ _ (Throw _)
  | CreateOrUpdateFileContents _ _ _ _ _ (Throw _) => true
  | _ => false
  end.

(** The content request the fetcher makes for a tree node, with its answer. *)
Definition fetch_of (input : UserInput) (n : TreeNode)
  (res : Completion (Z * GetContentsData)) : Event :=
  GetContent (repoOwner input) (templateRepoName input) (default "" (node_path n)) res.

(** The nodes the fetcher asks the content of, given the answer to the tree
    request. *)
Definition template_nodes (input : UserInput) (res : Completion (Z * list TreeNode))
  : list TreeNode :=
  match res with
  | Return (status, tree) =>
      if bool_decide (status = 200) then filter (λ n, inTemplateDir input n = true) tree
      else []
  | Throw _ => []
  end.

(** The answer to a content request that lets the loop of the fetcher go on:
    the status 200, and an entry the renderer takes without an error. *)
Definition fetched_fine (P : Platform) (input : UserInput)
  (a : Completion (Z * GetContentsData)) : Prop :=
  ∃ data out, a = Return (200, data)
              ∧ ∀ w, (renderFileData P data input w).1 = Return out.

(** The answer to a content request that ends the loop of the fetcher with
    the error [e]: the request threw [e], or its status was not 200, or the
    engine threw [e] on the entry. *)
Definition fetch_stopped (P : Platform) (input : UserInput) (e : JsError)
  (a : Completion (Z * GetContentsData)) : Prop :=
  a = Throw e
  ∨ (∃ status data, a = Return (status, data) ∧ status ≠ 200)
  ∨ (∃ data, a = Return (200, data)
             ∧ ∀ w, (renderFileData P data input w).1 = Throw e).

(** The request that adds a rendered file, with its answer. *)
Definition write_of (P : Platform) (input : UserInput) (f : RenderedTemplateFile)
  (res : Completion Z) : Event :=
  CreateOrUpdateFileContents ("feat: added " +:+ out_path f +:+ " from template repo")
    (encodeBase64 P (out_content f)) (out_path f) (repoName input) (repoOwner input) res.

(** The paths of the files whose addition was answered with the status 201. *)
Definition accepted (files : list RenderedTemplateFile) (statuses : list Z) : list string :=
  omap (λ fs : RenderedTemplateFile * Z,
          if bool_decide (fs.2 = 201) then Some (out_path fs.1) else None)
       (zip files statuses).

(** The name the renderer gives to a file named [b]. *)
Definition rendered_name (b : string) : string :=
  if Js.endsWith b ".njk" then getNewFilename b else b.

(** * Properties *)

(** ** Strings *)

Section StringFacts.

Implicit Types (s t x y suf : string) (c sep : ascii).

Lemma sapp_nil_l s : "" +:+ s = s.
Proof. reflexivity. Qed.

Lemma sapp_cons c s t : String c s +:+ t = String c (s +:+ t).
Proof. reflexivity. Qed.

Lemma sapp_nil_r s : s +:+ "" = s.
Proof. induction s as [|c s IH]; [done|]. by rewrite sapp_cons, IH. Qed.

Lemma sapp_assoc s t x : (s +:+ t) +:+ x = s +:+ t +:+ x.
Proof. induction s as [|c s IH]; [done|]. by rewrite !sapp_cons, IH. Qed.

Lemma slength_app s t : String.length (s +:+ t) = (String.length s + String.length t)%nat.
Proof. induction s as [|c s IH]; [done|]. rewrite sapp_cons. simpl. by rewrite IH. Qed.

Lemma sapp_eq_nil s t : s +:+ t = "" → s = "" ∧ t = "".
Proof. destruct s; [done|]. by rewrite sapp_cons. Qed.

(** [endsWith] finds a suffix that was appended. *)
Lemma endsWith_app x suf : Js.endsWith (x +:+ suf) suf = true.
Proof.
  induction x as [|c x IH].
  - rewrite sapp_nil_l. destruct suf; simpl; try case_decide; done.
  - rewrite sapp_cons. simpl. case_decide; [done|]. exact IH.
Qed.

Lemma endsWith_inv s suf : Js.endsWith s suf = true → ∃ x, s = x +:+ suf.
Proof.
  induction s as [|c s IH]; simpl; case_decide as Heq; intros H; try done.
  - exists "". by subst.
  - exists "". by subst.
  - destruct (IH H) as [x ->]. exists (String c x). by rewrite sapp_cons.
Qed.

(** A suffix that fits in [y] is looked for in [y] alone. *)
Lemma endsWith_app_r x y suf :
  (String.length suf ≤ String.length y)%nat →
  Js.endsWith (x +:+ y) suf = Js.endsWith y suf.
Proof.
  intros Hlen. induction x as [|c x IH]; [done|].
  rewrite sapp_cons. simpl. case_decide as Heq; [|exact IH].
  exfalso. apply (f_equal String.length) in Heq.
  simpl in Heq. rewrite slength_app in Heq. lia.
Qed.

End StringFacts.

(** ** Splitting and joining *)

Section SplitFacts.

Implicit Types (s t x y : string) (c sep : ascii) (segs : list string).

Lemma split_nonempty sep s : Js.split sep s ≠ [].
Proof.
  destruct s as [|c s]; simpl; [done|].
  case_decide; [done|]. by destruct (Js.split sep s).
Qed.

Lemma split_cons_other sep c s :
  c ≠ sep →
  ∃ seg rest, Js.split sep s = seg :: rest ∧
              Js.split sep (String c s) = String c seg :: rest.
Proof.
  intros Hc. simpl. rewrite decide_False by done.
  destruct (Js.split sep s) as [|seg rest] eqn:Hs; [by apply split_nonempty in Hs|].
  eauto.
Qed.

(** A separator ends the last segment of what precedes it. *)
Lemma split_app_sep sep x y :
  Js.split sep (x +:+ String sep y) = Js.split sep x ++ Js.split sep y.
Proof.
  induction x as [|c x IH].
  - rewrite sapp_nil_l. simpl. by rewrite decide_True.
  - rewrite sapp_cons. destruct (decide (c = sep)) as [->|Hc].
    + simpl. rewrite !decide_True by done. by rewrite IH.
    + destruct (split_cons_other sep c x Hc) as (seg & rest & Hx & ->).
      destruct (split_cons_other sep c (x +:+ String sep y) Hc) as (seg' & rest' & Hxy & ->).
      rewrite IH, Hx in Hxy. by simplify_eq/=.
Qed.

Lemma split_free sep s : occurs sep s = false → Js.split sep s = [s].
Proof.
  induction s as [|c s IH]; [done|]. simpl.
  intros [Hc Hs]%orb_false_elim. apply bool_decide_eq_false in Hc.
  rewrite decide_False by done. by rewrite IH.
Qed.

Lemma split_all_free sep s : Forall (λ seg, occurs sep seg = false) (Js.split sep s).
Proof.
  induction s as [|c s IH]; simpl; [by constructor|].
  case_decide as Hc; [by constructor|].
  destruct (Js.split sep s) as [|seg rest]; [by repeat constructor; simpl;
    rewrite bool_decide_eq_false_2|].
  inversion_clear IH as [|?? Hseg Hrest]. constructor; [|done].
  simpl. by rewrite bool_decide_eq_false_2.
Qed.

(** Text without a separator extends the last segment. *)
Lemma split_app_free sep x y :
  occurs sep y = false →
  ∃ init l, Js.split sep x = init ++ [l] ∧ Js.split sep (x +:+ y) = init ++ [l +:+ y].
Proof.
  intros Hy. induction x as [|c x (init & l & Hx & Hxy)].
  - exists [], "". split; [done|]. rewrite !sapp_nil_l. by rewrite split_free.
  - rewrite sapp_cons. simpl. rewrite Hx, Hxy. case_decide.
    + by exists ("" :: init), l.
    + destruct init as [|seg init]; simpl.
      * by exists [], (String c l).
      * by exists (String c seg :: init), l.
Qed.

Lemma join_cons (d : string) x segs :
  segs ≠ [] → Js.join d (x :: segs) = x +:+ d +:+ Js.join d segs.
Proof. by destruct segs. Qed.

Lemma join_snoc (d : string) segs b :
  segs ≠ [] → Js.join d (segs ++ [b]) = Js.join d segs +:+ d +:+ b.
Proof.
  induction segs as [|x segs IH]; [done|]. intros _.
  destruct segs as [|y segs]; [done|].
  rewrite <- app_comm_cons, join_cons by done.
  rewrite IH by done. rewrite (join_cons d x (y :: segs)) by done.
  by rewrite !sapp_assoc.
Qed.

(** Splitting undoes joining, for segments without the separator. *)
Lemma split_join c segs :
  Forall (λ seg, occurs c seg = false) segs → segs ≠ [] →
  Js.split c (Js.join (String c "") segs) = segs.
Proof.
  induction 1 as [|x segs Hx Hsegs IH]; [done|]. intros _.
  destruct segs as [|y segs]; [by apply split_free|].
  rewrite join_cons by done. rewrite sapp_cons, sapp_nil_l.
  rewrite split_app_sep, split_free by done. by rewrite IH.
Qed.

End SplitFacts.

(** ** Paths *)

Section PathFacts.

Implicit Types (p b x dir : string) (segs init : list string).

Lemma occurs_app c x y : occurs c (x +:+ y) = occurs c x || occurs c y.
Proof.
  induction x as [|a x IH]; [done|]. rewrite sapp_cons. simpl.
  by rewrite IH, orb_assoc.
Qed.

Lemma component_nonempty b : component b → b ≠ "".
Proof. by intros [? _]. Qed.

Lemma component_free b : component b → occurs Path.slash b = false.
Proof. by intros (_ & ? & _). Qed.

(** A name that ends with [.njk] and has no slash is a component. *)
Lemma component_of_suffix b :
  Js.endsWith b ".njk" = true → occurs Path.slash b = false → component b.
Proof.
  intros Hend Hfree. repeat split; [|done|..]; intros ->; by vm_compute in Hend.
Qed.

Lemma strip_empty_rev_snoc init b :
  b ≠ "" → Path.strip_empty (rev (init ++ [b])) = b :: rev init.
Proof. intros Hb. rewrite rev_unit. simpl. by rewrite decide_False. Qed.

Lemma unsnoc_component_snoc p init b :
  Path.segments p = init ++ [b] → b ≠ "" → Path.unsnoc_component p = Some (init, b).
Proof.
  intros Hp Hb. unfold Path.unsnoc_component.
  by rewrite Hp, strip_empty_rev_snoc, rev_involutive.
Qed.

Lemma basename_free b : b ≠ "" → occurs Path.slash b = false → Path.basename b = b.
Proof.
  intros Hb Hfree. unfold Path.basename.
  assert (Path.segments b = [] ++ [b]) as Hsegs by (by apply split_free).
  by rewrite (unsnoc_component_snoc b [] b Hsegs Hb).
Qed.

(** The basename of a path that ends with a slash and a name is that name. *)
Lemma basename_app_slash x b :
  b ≠ "" → occurs Path.slash b = false → Path.basename (x +:+ "/" +:+ b) = b.
Proof.
  intros Hb Hfree. unfold Path.basename.
  assert (Path.segments (x +:+ "/" +:+ b) = Js.split Path.slash x ++ [b]) as Hsegs.
  { unfold Path.segments. rewrite sapp_cons, sapp_nil_l.
    by rewrite split_app_sep, (split_free _ b). }
  by rewrite (unsnoc_component_snoc _ _ b Hsegs Hb).
Qed.

(** The basename of a path that ends with a suffix without a slash ends with
    that suffix and has no slash either. *)
Lemma basename_suffix p suf :
  suf ≠ "" → occurs Path.slash suf = false → Js.endsWith p suf = true →
  Js.endsWith (Path.basename p) suf = true ∧ occurs Path.slash (Path.basename p) = false.
Proof.
  intros Hsuf Hfree [x ->]%endsWith_inv.
  destruct (split_app_free Path.slash x suf Hfree) as (init & l & Hx & Hxs).
  assert (l +:+ suf ≠ "") as Hne by (by intros [_ ?]%sapp_eq_nil).
  unfold Path.basename. rewrite (unsnoc_component_snoc _ init (l +:+ suf) Hxs Hne).
  split; [apply endsWith_app|].
  pose proof (split_all_free Path.slash (x +:+ suf)) as Hall.
  rewrite Hxs in Hall. apply Forall_app in Hall as [_ Hall].
  by inversion_clear Hall.
Qed.

Lemma dirname_nonempty p : Path.dirname p ≠ "".
Proof.
  unfold Path.dirname. destruct (Path.unsnoc_component p) as [[[|x init] b]|].
  - done.
  - repeat case_decide; done.
  - case_decide; done.
Qed.

(** A name without a slash does not end with one. *)
Lemma endsWith_slash_free x b :
  b ≠ "" → occurs Path.slash b = false → Js.endsWith (x +:+ b) "/" = false.
Proof.
  intros Hb Hfree. rewrite endsWith_app_r by (destruct b; simpl; [done|lia]).
  destruct (Js.endsWith b "/") eqn:Hend; [|done].
  apply endsWith_inv in Hend as [y ->]. rewrite occurs_app in Hfree.
  by apply orb_false_elim in Hfree as [_ ?].
Qed.

Lemma startsWith_slash_component b x :
  component b → Js.startsWith (b +:+ x) "/" = false.
Proof.
  intros (Hb & Hfree & _). destruct b as [|a b]; [done|].
  rewrite sapp_cons. simpl in *. apply orb_false_elim in Hfree as [Ha _].
  apply bool_decide_eq_false in Ha. rewrite decide_False; [done|].
  intros Heq. by apply Ha.
Qed.

Lemma normalize_step_component allow acc b :
  component b → Path.normalize_step allow acc b = b :: acc.
Proof.
  intros (? & _ & ? & ?). unfold Path.normalize_step.
  by rewrite !decide_False.
Qed.

Lemma fold_normalize_components allow segs acc :
  Forall component segs →
  fold_left (Path.normalize_step allow) segs acc = rev segs ++ acc.
Proof.
  intros Hsegs. revert acc.
  induction Hsegs as [|b segs Hb _ IH]; intros acc; [done|]. simpl.
  rewrite normalize_step_component by done. rewrite IH.
  by rewrite <- app_assoc.
Qed.

Lemma join_two dir b :
  dir ≠ "" → b ≠ "" → Path.join [dir; b] = Path.normalize (dir +:+ "/" +:+ b).
Proof.
  intros Hdir Hb. unfold Path.join.
  rewrite filter_cons_True by done. rewrite filter_cons_True by done.
  by rewrite filter_nil.
Qed.

(** A name keeps being the basename behind a prefix that is empty or ends
    with a slash. *)
Lemma basename_after_prefix x b :
  b ≠ "" → occurs Path.slash b = false → (x = "" ∨ ∃ z, x = z +:+ "/") →
  Path.basename (x +:+ b) = b.
Proof.
  intros Hb Hfree [->|[z ->]].
  - by apply basename_free.
  - rewrite sapp_assoc. by apply basename_app_slash.
Qed.

Lemma join_snoc_prefix segs b :
  ∃ x, Js.join "/" (segs ++ [b]) = x +:+ b ∧ (x = "" ∨ ∃ z, x = z +:+ "/").
Proof.
  destruct segs as [|s segs].
  - exists "". by split; [|left].
  - exists (Js.join "/" (s :: segs) +:+ "/"). split; [|by right; eexists].
    rewrite join_snoc by done. by rewrite sapp_assoc.
Qed.

Lemma segments_app_slash dir b :
  occurs Path.slash b = false →
  Path.segments (dir +:+ "/" +:+ b) = Path.segments dir ++ [b].
Proof.
  intros Hfree. unfold Path.segments. rewrite sapp_cons, sapp_nil_l.
  by rewrite split_app_sep, (split_free _ b).
Qed.

(** Joining a directory and a name gives a path whose basename is the name. *)
Lemma basename_join dir b :
  dir ≠ "" → component b → Path.basename (Path.join [dir; b]) = b.
Proof.
  intros Hdir Hcomp.
  pose proof (component_nonempty b Hcomp) as Hb.
  pose proof (component_free b Hcomp) as Hfree.
  rewrite join_two by done. unfold Path.normalize, Path.normalizeString.
  rewrite decide_False by (by intros [? _]%sapp_eq_nil).
  rewrite segments_app_slash by done.
  rewrite <- sapp_assoc, (endsWith_slash_free _ b Hb Hfree).
  rewrite fold_left_app. simpl. rewrite normalize_step_component by done.
  simpl. destruct (join_snoc_prefix (rev (fold_left
    (Path.normalize_step (negb (Js.startsWith ((dir +:+ "/") +:+ b) "/")))
    (Path.segments dir) [])) b) as (x & -> & Hx).
  rewrite decide_False by (by intros [_ ?]%sapp_eq_nil).
  destruct (Js.startsWith _ "/").
  - rewrite <- sapp_assoc. apply basename_after_prefix; [done..|].
    destruct Hx as [->|[z ->]]; right; [by exists ""|].
    exists ("/" +:+ z). by rewrite sapp_assoc.
  - by apply basename_after_prefix.
Qed.

Lemma join_head (d : string) s segs : ∃ y, Js.join d (s :: segs) = s +:+ y.
Proof.
  destruct segs; [exists ""; by rewrite sapp_nil_r|]. eexists. by apply join_cons.
Qed.

Lemma join_components_nonempty segs :
  Forall component segs → segs ≠ [] → Js.join "/" segs ≠ "".
Proof.
  intros Hsegs Hne. destruct segs as [|s segs]; [done|].
  destruct (join_head "/" s segs) as [y ->]. inversion_clear Hsegs as [|?? Hs _].
  intros [? _]%sapp_eq_nil. by apply component_nonempty in Hs.
Qed.

(** A path made of components is in normal form. *)
Lemma normalize_components segs :
  Forall component segs → segs ≠ [] →
  Path.normalize (Js.join "/" segs) = Js.join "/" segs.
Proof.
  intros Hsegs Hne.
  assert (Forall (λ seg, occurs Path.slash seg = false) segs) as Hfree.
  { eapply Forall_impl; [done|]. apply component_free. }
  destruct segs as [|s segs]; [done|].
  destruct (join_head "/" s segs) as [y Hy].
  inversion Hsegs as [|?? Hs _]; subst.
  destruct (exists_last Hne) as (init & b & Hlast).
  assert (component b) as Hcb.
  { rewrite Hlast in Hsegs. apply Forall_app in Hsegs as [_ Hb]. by inversion Hb. }
  destruct (join_snoc_prefix init b) as (x & Hx & _). rewrite <- Hlast in Hx.
  unfold Path.normalize, Path.normalizeString.
  rewrite decide_False by (by apply join_components_nonempty).
  unfold Path.segments. rewrite split_join by done.
  rewrite fold_normalize_components by done.
  rewrite app_nil_r, rev_involutive.
  rewrite decide_False by (by apply join_components_nonempty).
  assert (Js.startsWith (Js.join "/" (s :: segs)) "/" = false) as ->.
  { rewrite Hy. by apply startsWith_slash_component. }
  assert (Js.endsWith (Js.join "/" (s :: segs)) "/" = false) as ->; [|done].
  rewrite Hx. apply endsWith_slash_free; [by apply component_nonempty|by apply component_free].
Qed.

Lemma dirname_components d fn :
  Forall component d → component fn →
  Path.dirname (Js.join "/" (d ++ [fn])) = if decide (d = []) then "." else Js.join "/" d.
Proof.
  intros Hd Hfn.
  assert (Path.segments (Js.join "/" (d ++ [fn])) = d ++ [fn]) as Hsegs.
  { apply split_join; [|by destruct d].
    apply Forall_app. split; [|by repeat constructor; apply component_free].
    eapply Forall_impl; [done|]. apply component_free. }
  unfold Path.dirname.
  rewrite (unsnoc_component_snoc _ _ _ Hsegs (component_nonempty _ Hfn)).
  destruct d as [|s d]; [done|]. rewrite (decide_False (P := s :: d = [])) by done.
  rewrite decide_False by (by apply join_components_nonempty).
  inversion_clear Hd as [|?? Hs _]. destruct (join_head "/" s d) as [y Hy].
  pose proof (startsWith_slash_component s y Hs) as Hstart. rewrite <- Hy in Hstart.
  by rewrite decide_False by (by intros Heq; rewrite Heq in Hstart).
Qed.

(** Replacing the last component of a path made of components: the basename
    is the last component, and joining the dirname with a new name puts the
    new name in its place. *)
Lemma rename_last_component d fn fn' :
  Forall component d → component fn → component fn' →
  Path.basename (Js.join "/" (d ++ [fn])) = fn ∧
  Path.join [Path.dirname (Js.join "/" (d ++ [fn])); fn'] = Js.join "/" (d ++ [fn']).
Proof.
  intros Hd Hfn Hfn'. split.
  - destruct (join_snoc_prefix d fn) as (x & -> & Hx).
    apply basename_after_prefix; [by apply component_nonempty|by apply component_free|done].
  - pose proof (component_nonempty _ Hfn') as Hne.
    pose proof (component_free _ Hfn') as Hfree.
    rewrite dirname_components by done. case_decide as Hnil.
    + subst d. rewrite join_two by done.
      unfold Path.normalize, Path.normalizeString.
      rewrite decide_False by (by intros [? _]%sapp_eq_nil).
      rewrite segments_app_slash by done.
      rewrite <- sapp_assoc, (endsWith_slash_free _ fn' Hne Hfree).
      simpl. rewrite normalize_step_component by done. simpl.
      by rewrite decide_False.
    + rewrite join_two; [|by apply join_components_nonempty|done].
      rewrite <- join_snoc by done. apply normalize_components; [|by destruct d].
      apply Forall_app_2; [done|by apply Forall_singleton].
Qed.

End PathFacts.

(** ** The renderer *)

Section Renderer.

Context (P : Platform).

Implicit Types (f : GetContentsData) (input : UserInput) (w : World).

Lemma truthy_Some c : c ≠ "" → Js.truthy (Some c) = true.
Proof. intros Hc. simpl. by rewrite bool_decide_eq_false_2. Qed.

Lemma truthy_inv o : Js.truthy o = true → ∃ c, o = Some c ∧ c ≠ "".
Proof.
  destruct o as [c|]; [|done]. simpl. intros Hc%negb_true_iff.
  apply bool_decide_eq_false in Hc. eauto.
Qed.

Lemma renderFileData_falsy f input w :
  Js.truthy (entry_content f) = false → renderFileData P f input w = (Return None, w).
Proof. intros Hc. unfold renderFileData. by rewrite Hc. Qed.

Lemma renderFileData_plain f input w c :
  entry_content f = Some c → c ≠ "" → Js.endsWith (entry_path f) ".njk" = false →
  renderFileData P f input w
  = (Return (Some {| out_path := entry_path f; out_content := decodeBase64 P c |}),
     announced f w).
Proof.
  intros Hc Hne Hend. unfold renderFileData.
  rewrite Hc, truthy_Some, Hend by done. reflexivity.
Qed.

Lemma renderFileData_template f input w c :
  entry_content f = Some c → c ≠ "" → Js.endsWith (entry_path f) ".njk" = true →
  renderFileData P f input w
  = (match renderString P (decodeBase64 P c) input with
     | Return r =>
         Return (Some {| out_path := Path.join [Path.dirname (entry_path f);
                                                getNewFilename (Path.basename (entry_path f))];
                         out_content := r |})
     | Throw e => Throw e
     end, announced f w).
Proof.
  intros Hc Hne Hend. unfold renderFileData.
  rewrite Hc, truthy_Some, Hend by done.
  unfold mbind, M_bind, bind, print, lift, announced. simpl.
  by destruct (renderString P (decodeBase64 P c) input).
Qed.

(** The renderer leaves the record of exchanges alone. *)
Lemma renderFileData_events f input w :
  events (renderFileData P f input w).2 = events w.
Proof.
  destruct (Js.truthy (entry_content f)) eqn:Hc.
  - apply truthy_inv in Hc as (c & Hc & Hne).
    destruct (Js.endsWith (entry_path f) ".njk") eqn:Hend.
    + by rewrite (renderFileData_template f input w c).
    + by rewrite (renderFileData_plain f input w c).
  - by rewrite renderFileData_falsy.
Qed.

(** What the renderer returns does not depend on the world. *)
Lemma renderFileData_result f input w1 w2 :
  (renderFileData P f input w1).1 = (renderFileData P f input w2).1.
Proof.
  destruct (Js.truthy (entry_content f)) eqn:Hc.
  - apply truthy_inv in Hc as (c & Hc & Hne).
    destruct (Js.endsWith (entry_path f) ".njk") eqn:Hend.
    + by rewrite (renderFileData_template f input w1 c),
        (renderFileData_template f input w2 c).
    + by rewrite (renderFileData_plain f input w1 c), (renderFileData_plain f input w2 c).
  - by rewrite !renderFileData_falsy.
Qed.

(** C1, as the script has it.  A file whose content payload is present and
    not the empty string, and whose path does not end with [.njk], is returned
    as it is: the content is the base64-decoded payload and the path is the
    path of the input.  The test of the script is [if (file.content)], which
    an empty payload does not pass. *)
Theorem renderFileData_verbatim f input w c :
  entry_content f = Some c → c ≠ "" → Js.endsWith (entry_path f) ".njk" = false →
  (renderFileData P f input w).1
  = Return (Some {| out_path := entry_path f; out_content := decodeBase64 P c |}).
Proof. intros Hc Hne Hend. by rewrite (renderFileData_plain f input w c). Qed.

Lemma endsWith_join_last d fn suf :
  (String.length suf ≤ String.length fn)%nat →
  Js.endsWith (Js.join "/" (d ++ [fn])) suf = Js.endsWith fn suf.
Proof.
  intros Hlen. destruct (join_snoc_prefix d fn) as (x & -> & _).
  by apply endsWith_app_r.
Qed.

(** C2. A template named [README.njk] in the directory [d] is rendered to
    [d/README.md], one named [package.njk] to [d/package.json]; the directory
    is given by its components. *)
Theorem renderFileData_renames f input w d c r :
  Forall component d → entry_content f = Some c → c ≠ "" →
  renderString P (decodeBase64 P c) input = Return r →
  (entry_path f = Js.join "/" (d ++ ["README.njk"]) →
   (renderFileData P f input w).1
   = Return (Some {| out_path := Js.join "/" (d ++ ["README.md"]); out_content := r |}))
  ∧ (entry_path f = Js.join "/" (d ++ ["package.njk"]) →
     (renderFileData P f input w).1
     = Return (Some {| out_path := Js.join "/" (d ++ ["package.json"]); out_content := r |})).
Proof.
  intros Hd Hc Hne Hr. split; intros Hpath.
  - rewrite (renderFileData_template f input w c), Hr; [|done..|].
    + rewrite Hpath.
      destruct (rename_last_component d "README.njk" "README.md") as [-> Hjoin];
        [done|by repeat split..|].
      simpl. by rewrite <- Hjoin.
    + rewrite Hpath, endsWith_join_last; [done|simpl; lia].
  - rewrite (renderFileData_template f input w c), Hr; [|done..|].
    + rewrite Hpath.
      destruct (rename_last_component d "package.njk" "package.json") as [-> Hjoin];
        [done|by repeat split..|].
      simpl. by rewrite <- Hjoin.
    + rewrite Hpath, endsWith_join_last; [done|simpl; lia].
Qed.

(** C3. A template whose basename is neither [README.njk] nor [package.njk]
    keeps its filename, suffix included, and its content is what the engine
    makes of the decoded payload; its path is unchanged when it is made of
    components. *)
Theorem renderFileData_keeps_other_names f input w c r :
  entry_content f = Some c → c ≠ "" → Js.endsWith (entry_path f) ".njk" = true →
  Path.basename (entry_path f) ≠ "README.njk" →
  Path.basename (entry_path f) ≠ "package.njk" →
  renderString P (decodeBase64 P c) input = Return r →
  ∃ out, (renderFileData P f input w).1 = Return (Some out)
         ∧ Path.basename (out_path out) = Path.basename (entry_path f)
         ∧ Js.endsWith (Path.basename (out_path out)) ".njk" = true
         ∧ out_content out = r
         ∧ (∀ d b, Forall component d → component b →
                   entry_path f = Js.join "/" (d ++ [b]) → out_path out = entry_path f).
Proof.
  intros Hc Hne Hend Hreadme Hpackage Hr.
  rewrite (renderFileData_template f input w c), Hr by done.
  eexists. split; [done|]. simpl.
  unfold getNewFilename. rewrite !decide_False by done.
  destruct (basename_suffix (entry_path f) ".njk") as [Hbend Hbfree]; [done..|].
  pose proof (component_of_suffix _ Hbend Hbfree) as Hcomp.
  rewrite basename_join by (done || apply dirname_nonempty).
  repeat split; [done|].
  intros d b Hd Hb Hpath. rewrite Hpath.
  by destruct (rename_last_component d b b) as [-> ->].
Qed.


End Renderer.

(** ** The fetcher *)

Section Fetcher.

Context (P : Platform).

Implicit Types (input : UserInput) (w : World) (tree : list TreeNode).

Lemma rendered_from_mono input evs evs' n out :
  evs ⊆ evs' → rendered_from P input evs n out → rendered_from P input evs' n out.
Proof.
  intros Hsub (Hblob & p & data & Hp & Hstart & Hin & Hc & Hr).
  split; [done|]. exists p, data. repeat split; try done. by apply Hsub.
Qed.

Lemma inTemplateDir_inv input n :
  inTemplateDir input n = true →
  node_type n = Some "blob"
  ∧ ∃ p, node_path n = Some p
         ∧ Js.startsWith p (Js.toLowerCase (repoType input) +:+ "/") = true.
Proof.
  unfold inTemplateDir. intros [[Hblob Hpath]%andb_prop Hstart]%andb_prop.
  apply bool_decide_eq_true in Hblob. apply truthy_inv in Hpath as (p & Hp & _).
  split; [done|]. exists p. by rewrite Hp in Hstart |- *.
Qed.

(** A result of the renderer, read back. *)
Lemma renderFileData_Some input data w out :
  (renderFileData P data input w).1 = Return (Some out) →
  Js.truthy (entry_content data) = true.
Proof.
  destruct (Js.truthy (entry_content data)) eqn:Hc; [done|].
  by rewrite renderFileData_falsy.
Qed.

(* Closes the case of a fetch that stops at its first exchange. *)
Local Ltac stopped :=
  eexists [_]; split; [reflexivity|]; split; [by repeat constructor|]; by intros ? [=].

(** The loop over the tree: the exchanges it adds are content fetches; when
    it ends normally each of them succeeded, and the files pushed come, in
    order, from nodes of the tree. *)
Lemma fetchTree_spec input tree : ∀ acc w,
  ∃ new, events (fetchTree P input tree acc w).2 = new ++ events w
    ∧ Forall (λ ev, is_topics ev = false) new
    ∧ ∀ files, (fetchTree P input tree acc w).1 = Return files →
        Forall (λ ev, fetch_failed ev = false) new
        ∧ ∃ nodes fs, files = acc ++ fs ∧ nodes `sublist_of` tree
                      ∧ Forall2 (rendered_from P input new) nodes fs.
Proof.
  induction tree as [|n rest IH]; intros acc w.
  { exists []. split_and!; [done..|]. intros files [= <-]. split; [done|].
    exists [], []. by rewrite app_nil_r. }
  simpl. destruct (inTemplateDir input n) eqn:Hin.
  2:{ destruct (IH acc w) as (new & Hev & Htop & Hok). exists new.
      split_and!; [done..|]. intros files Hfiles.
      destruct (Hok files Hfiles) as (Hall & nodes & fs & -> & Hsub & Hfrom).
      split; [done|]. exists nodes, fs. split_and!; [done| |done].
      by apply sublist_cons. }
  apply inTemplateDir_inv in Hin as (Hblob & p & Hp & Hstart).
  rewrite Hp. simpl.
  unfold mbind, M_bind, bind, getContent, exchange. simpl.
  destruct (api_getContent P (events w) (repoOwner input) (templateRepoName input) p)
    as [[status data]|e] eqn:Hres; simpl.
  2:{ stopped. }
  case_bool_decide as Hstatus; simpl.
  2:{ stopped. }
  subst status.
  set (w2 := {| events := _; console := _ |}).
  pose proof (renderFileData_events P data input w2) as Hevents.
  pose proof (λ out, renderFileData_Some input data w2 out) as Hsome.
  pose proof (renderFileData_result P data input w2) as Hsame.
  destruct (renderFileData P data input w2) as [[rendered|e] w3]; simpl in *.
  2:{ rewrite Hevents. stopped. }
  set (acc' := match rendered with Some r => acc ++ [r] | None => acc end).
  destruct (IH acc' w3) as (new & Hev & Htop & Hok).
  exists (new ++ [GetContent (repoOwner input) (templateRepoName input) p
                    (Return (200, data))]).
  rewrite Hev, Hevents, <- app_assoc. split; [done|]. split.
  { apply Forall_app_2; [done|by repeat constructor]. }
  intros files Hfiles.
  destruct (Hok files Hfiles) as (Hall & nodes & fs & -> & Hsub & Hfrom).
  split. { apply Forall_app_2; [done|by repeat constructor]. }
  assert (Forall2 (rendered_from P input
            (new ++ [GetContent (repoOwner input) (templateRepoName input) p
                       (Return (200, data))])) nodes fs) as Hfrom'.
  { eapply Forall2_impl; [done|]. intros n' out'. apply rendered_from_mono.
    intros ev Hev'. apply elem_of_app. by left. }
  destruct rendered as [r|]; subst acc'.
  - exists (n :: nodes), (r :: fs). rewrite <- app_assoc. split_and!; [done| |].
    + by apply sublist_skip.
    + constructor; [|done]. split; [done|]. exists p, data. split_and!; [done..| | |].
      * apply elem_of_app. right. by apply list_elem_of_singleton.
      * by apply (Hsome r).
      * intros w0. by rewrite <- Hsame.
  - exists nodes, fs. split_and!; [done| |done]. by apply sublist_cons.
Qed.

(** The [try] block: the listing, then the loop. *)
Lemma getTemplateFiles_try_spec input w :
  ∃ new, events (getTemplateFiles_try P input w).2 = new ++ events w
    ∧ Forall (λ ev, is_topics ev = false) new
    ∧ ∀ files, (getTemplateFiles_try P input w).1 = Return files →
        Forall (λ ev, fetch_failed ev = false) new
        ∧ ∃ tree nodes,
            api_getTree P (events w) (repoOwner input) (templateRepoName input) "main"
            = Return (200, tree)
            ∧ nodes `sublist_of` tree
            ∧ Forall2 (rendered_from P input new) nodes files.
Proof.
  unfold getTemplateFiles_try, mbind, M_bind, bind, exchange. simpl.
  destruct (api_getTree P (events w) (repoOwner input) (templateRepoName input) "main")
    as [[status tree]|e] eqn:Hres; simpl.
  2:{ stopped. }
  case_bool_decide as Hstatus; simpl.
  2:{ stopped. }
  subst status. set (w1 := {| events := _; console := _ |}).
  destruct (fetchTree_spec input tree [] w1) as (new & Hev & Htop & Hok).
  exists (new ++ [GetTree (repoOwner input) (templateRepoName input) "main"
                    (Return (200, tree))]).
  rewrite Hev, <- app_assoc. split; [done|]. split.
  { apply Forall_app_2; [done|by repeat constructor]. }
  intros files Hfiles.
  destruct (Hok files Hfiles) as (Hall & nodes & fs & -> & Hsub & Hfrom).
  split. { apply Forall_app_2; [done|by repeat constructor]. }
  exists tree, nodes. split_and!; [done..|].
  eapply Forall2_impl; [done|]. intros n' out'. apply rendered_from_mono.
  intros ev Hev'. apply elem_of_app. by left.
Qed.

Lemma getTemplateFiles_unfold input w :
  getTemplateFiles P input w
  = match getTemplateFiles_try P input w with
    | (Return files, w') => (Return files, w')
    | (Throw e, w') =>
        (Return [],
         {| events := events w';
            console := ErrorObject e
              :: Line LError
                   "[ERROR][getTemplateFiles] Error caught when getting template files:"
              :: console w' |})
    end.
Proof.
  unfold getTemplateFiles, try_catch.
  by destruct (getTemplateFiles_try P input w) as [[files|e] w'].
Qed.

(** C4. The fetcher never raises: it always returns a list.  When one of the
    exchanges it made, the tree listing or a content fetch, failed or did not
    report the status 200, the list is empty; in particular when the tree
    listing did. *)
Theorem getTemplateFiles_fail_closed input w :
  ∃ files new,
    (getTemplateFiles P input w).1 = Return files
    ∧ events (getTemplateFiles P input w).2 = new ++ events w
    ∧ (Exists (λ ev, fetch_failed ev = true) new → files = [])
    ∧ (succeeded (api_getTree P (events w) (repoOwner input) (templateRepoName input)
                    "main") = false → files = []).
Proof.
  rewrite getTemplateFiles_unfold.
  destruct (getTemplateFiles_try_spec input w) as (new & Hev & _ & Hok).
  destruct (getTemplateFiles_try P input w) as [[files|e] w'] eqn:Htry; simpl in *.
  - exists files, new. destruct (Hok files eq_refl) as (Hall & tree & nodes & Htree & _).
    split_and!; [done..| |].
    + intros (ev & Hin & Hfail)%Exists_exists.
      rewrite Forall_forall in Hall. by rewrite (Hall ev Hin) in Hfail.
    + by rewrite Htree.
  - by exists [], new.
Qed.

(** C5. When the fetcher ends without a failure, the files it returns come,
    in the order of the tree listing, from nodes of the listing that are blobs
    under the lower-cased variant name followed by a slash, each with a
    content fetch that succeeded and returned content. *)
Theorem getTemplateFiles_from_tree input w files w' :
  getTemplateFiles_try P input w = (Return files, w') →
  getTemplateFiles P input w = (Return files, w')
  ∧ ∃ tree nodes,
      api_getTree P (events w) (repoOwner input) (templateRepoName input) "main"
      = Return (200, tree)
      ∧ nodes `sublist_of` tree
      ∧ Forall2 (rendered_from P input (events w')) nodes files.
Proof.
  intros Htry. rewrite getTemplateFiles_unfold, Htry. split; [done|].
  destruct (getTemplateFiles_try_spec input w) as (new & Hev & _ & Hok).
  rewrite Htry in Hev, Hok. simpl in *.
  destruct (Hok files eq_refl) as (_ & tree & nodes & Htree & Hsub & Hfrom).
  exists tree, nodes. split_and!; [done..|].
  eapply Forall2_impl; [done|]. intros n' out'. apply rendered_from_mono.
  intros ev Hev'. rewrite Hev. apply elem_of_app. by left.
Qed.

(** C6. An entry without content gives no rendered file: the renderer
    returns [undefined] and does not throw, and the loop of the fetcher goes
    on to the next node with the files it had.  An empty payload counts as no
    content. *)
Theorem no_content_no_file input :
  (∀ f w, Js.truthy (entry_content f) = false →
          renderFileData P f input w = (Return None, w))
  ∧ (∀ treeNode rest files w data,
       inTemplateDir input treeNode = true →
       api_getContent P (events w) (repoOwner input) (templateRepoName input)
         (default "" (node_path treeNode)) = Return (200, data) →
       Js.truthy (entry_content data) = false →
       fetchTree P input (treeNode :: rest) files w
       = fetchTree P input rest files
           {| events := GetContent (repoOwner input) (templateRepoName input)
                          (default "" (node_path treeNode)) (Return (200, data))
                        :: events w;
              console := Line LDebug "[getTemplateFiles] Template File Content Status: 200"
                         :: console w |}).
Proof.
  split; [intros f w; apply renderFileData_falsy|].
  intros treeNode rest files w data Hin Hres Hc. simpl. rewrite Hin.
  unfold mbind, M_bind, bind, getContent, exchange. simpl. rewrite Hres. simpl.
  by rewrite renderFileData_falsy.
Qed.

End Fetcher.

(** ** Input resolution *)

Section Input.

Implicit Types (env : Env) (input : UserInput).

Lemma getInput_Return env input :
  getInput env = Return input →
  required_present env = true
  ∧ ∃ name, env !! "REPO_TEAM" = Some name ∧ name ≠ ""
            ∧ repoTeam input = lookupTeam name
            ∧ repoTopics input = (Js.split "," <$> env !! "REPO_TOPICS").
Proof.
  unfold getInput, required_present.
  destruct (Js.truthy (env !! "REPO_NAME")); [|done].
  destruct (Js.truthy (env !! "REPO_TEAM")) eqn:Hteam; [|done].
  destruct (Js.truthy (env !! "REPO_TYPE")); [|done].
  destruct (Js.truthy (Js.or_else _ _)); [|done].
  simpl. intros [= <-]. split; [done|].
  apply truthy_inv in Hteam as (name & Hname & Hne).
  exists name. by rewrite Hname.
Qed.

Lemma getInput_Throw env e : getInput env = Throw e → required_present env = false.
Proof.
  unfold getInput, required_present.
  destruct (Js.truthy (env !! "REPO_NAME")); [|done].
  destruct (Js.truthy (env !! "REPO_TEAM")); [|done].
  destruct (Js.truthy (env !! "REPO_TYPE")); [|done].
  by destruct (Js.truthy (Js.or_else _ _)).
Qed.

(** The table has a record for a name exactly when the name is one of the
    enumerated team names. *)
Lemma lookupTeam_known name :
  (∃ t, lookupTeam name = KnownTeam t) ↔ name ∈ RepoTeamName.
Proof.
  unfold lookupTeam. split.
  - intros [t Ht]. destruct (RepoTeams !! name) as [t'|] eqn:Hlook.
    + apply elem_of_list_to_map_2 in Hlook.
      repeat (apply elem_of_cons in Hlook as [[= -> _]|Hlook];
              [unfold RepoTeamName; set_solver|]).
      by apply elem_of_nil in Hlook.
    + by case_bool_decide.
  - intros Hin.
    repeat (apply elem_of_cons in Hin as [->|Hin]; [by eexists|]).
    by apply elem_of_nil in Hin.
Qed.

End Input.

(** ** The run *)

Section Run.

Context (P : Platform).

Implicit Types (env : Env) (input : UserInput) (w : World).

Lemma addFiles_events input files : ∀ acc w,
  ∃ new, events (addFiles P input files acc w).2 = new ++ events w
         ∧ Forall (λ ev, is_topics ev = false) new.
Proof.
  induction files as [|f rest IH]; intros acc w; [by exists []|].
  simpl. unfold mbind, M_bind, bind, exchange. simpl.
  destruct (api_createOrUpdateFileContents P _ _ _ _ _ _) as [status|e]; simpl.
  - match goal with |- context [addFiles P input rest ?a ?w1] =>
      destruct (IH a w1) as (new & -> & Hnew) end.
    eexists (new ++ [_]). rewrite <- app_assoc. split; [done|].
    apply Forall_app_2; [done|by repeat constructor].
  - eexists [_]. split; [done|by repeat constructor].
Qed.

Lemma getTemplateFiles_events input w :
  ∃ files new, (getTemplateFiles P input w).1 = Return files
               ∧ events (getTemplateFiles P input w).2 = new ++ events w
               ∧ Forall (λ ev, is_topics ev = false) new.
Proof.
  rewrite getTemplateFiles_unfold.
  destruct (getTemplateFiles_try_spec P input w) as (new & Hev & Htop & _).
  destruct (getTemplateFiles_try P input w) as [[files|e] w']; simpl in *; eauto.
Qed.

(** Populating the repository replaces no topics. *)
Lemma populate_events input w :
  ∃ new, events (populate P input w).2 = new ++ events w
         ∧ Forall (λ ev, is_topics ev = false) new.
Proof.
  unfold populate, mbind, M_bind, bind.
  destruct (getTemplateFiles_events input w) as (files & new1 & Hret & Hev1 & Htop1).
  destruct (getTemplateFiles P input w) as [res w1]. simpl in *. subst res.
  destruct (addFiles_events input files [] w1) as (new2 & Hev2 & Htop2).
  destruct (addFiles P input files [] w1) as [[added|e] w2]; simpl in *.
  - exists (new2 ++ new1). rewrite Hev2, Hev1, <- app_assoc. split; [done|].
    by apply Forall_app_2.
  - exists (new2 ++ new1). rewrite Hev2, Hev1, <- app_assoc. split; [done|].
    by apply Forall_app_2.
Qed.

(** The run up to the test on the topics, when the team has a name and the
    repository is created. *)
Lemma scaffold_created input w team st :
  teamName (repoTeam input) = Return team →
  api_createInOrg P (events w) (repoName input) (repoOwner input) (repoDescription input)
  = Return st →
  scaffold P input w
  = ((if topicsProvided input then
        topicsRes ← exchange
          (λ hist, api_replaceAllTopics P hist (default [] (repoTopics input))
                     (repoName input) (repoOwner input))
          (ReplaceAllTopics (default [] (repoTopics input))
             (repoName input) (repoOwner input));
        print (Line LLog ("[main] Topics Response Status: " +:+ Js.show_Z topicsRes))
      else mret tt);; populate P input) (after_creation input team st w).
Proof.
  intros Hteam Hcreate. unfold scaffold, mbind, M_bind, bind, lift, exchange, print.
  rewrite Hteam. simpl. by rewrite Hcreate.
Qed.

(** The exchanges of a run that reaches the test on the topics: the
    creation, the replacement of the topics if the test passes, and those of
    the population. *)
Lemma scaffold_events input w team st :
  teamName (repoTeam input) = Return team →
  api_createInOrg P (events w) (repoName input) (repoOwner input) (repoDescription input)
  = Return st →
  ∃ new, events (scaffold P input w).2 = new ++ events w
         ∧ (Exists (λ ev, is_topics ev = true) new ↔ topicsProvided input = true)
         ∧ (topicsProvided input = false →
            scaffold P input w = populate P input (after_creation input team st w)).
Proof.
  intros Hteam Hcreate. rewrite (scaffold_created input w team st) by done.
  destruct (topicsProvided input).
  - unfold mbind, M_bind, bind, exchange, print. simpl.
    destruct (api_replaceAllTopics P _ _ _ _) as [status|e]; simpl.
    + match goal with |- context [populate P input ?w1] =>
        destruct (populate_events input w1) as (new & -> & Hnew) end.
      eexists (new ++ [_; _]). rewrite <- app_assoc. split; [done|].
      split; [|done]. split; [done|]. intros _.
      apply Exists_app. right. by left.
    + eexists [_; _]. split; [done|]. split; [|done]. split; [done|]. intros _. by left.
  - change ((mret tt;; populate P input) (after_creation input team st w))
      with (populate P input (after_creation input team st w)).
    destruct (populate_events input (after_creation input team st w))
      as (new & -> & Hnew).
    exists (new ++ [CreateInOrg (repoName input) (repoOwner input)
                      (repoDescription input) (Return st)]).
    rewrite <- app_assoc. split; [done|]. split; [|done]. split; [|done].
    intros [Hex|Hex]%Exists_app.
    + apply Exists_exists in Hex as (ev & Hin & Hev).
      rewrite Forall_forall in Hnew. by rewrite (Hnew ev Hin) in Hev.
    + by apply Exists_cons in Hex as [?|?%Exists_nil].
Qed.

Lemma main_resolved env input w :
  getInput env = Return input →
  (main P env w).1 = Return tt ∧ events (main P env w).2 = events (scaffold P input w).2.
Proof.
  intros Hinput. unfold main, try_catch, mbind, M_bind, bind, lift. rewrite Hinput.
  by destruct (scaffold P input w) as [[[]|e] w'].
Qed.

Lemma main_rejected env e w :
  getInput env = Throw e →
  main P env w
  = (Return tt,
     {| events := events w;
        console := ErrorObject e
          :: Line LError "[ERROR][main] Error caught when creating and initializing repo"
          :: console w |}).
Proof.
  intros Hinput. unfold main, try_catch, mbind, M_bind, bind, lift. by rewrite Hinput.
Qed.

(** The top-level handler catches everything: [main] never throws. *)
Lemma main_returns env w : (main P env w).1 = Return tt.
Proof.
  destruct (getInput env) as [input|e] eqn:Hinput.
  - by apply main_resolved with input.
  - by rewrite (main_rejected env e).
Qed.

(** The exit code of a run tells whether the access token was there, and
    nothing else. *)
Lemma run_exit_code env : (run P env).1 = if Js.truthy (ApiToken env) then 0 else 1.
Proof.
  unfold run. destruct (Js.truthy (ApiToken env)); [|done]. simpl.
  pose proof (main_returns env initial) as Hret.
  by destruct (main P env initial) as [[[]|e] w].
Qed.

Lemma run_events env :
  Js.truthy (ApiToken env) = true → (run P env).2 = (main P env initial).2.
Proof.
  intros Htoken. unfold run. rewrite Htoken. simpl.
  by destruct (main P env initial) as [[[]|e] w].
Qed.

Lemma getInput_accepts env :
  required_present env = true → ∃ input, getInput env = Return input.
Proof.
  intros Hreq. destruct (getInput env) as [input|e] eqn:Hinput; [by eexists|].
  apply getInput_Throw in Hinput. by rewrite Hinput in Hreq.
Qed.

Lemma run_rejected env e : getInput env = Throw e → events (run P env).2 = [].
Proof.
  intros Hinput. unfold run. destruct (Js.truthy (ApiToken env)); [|done]. simpl.
  by rewrite (main_rejected env e).
Qed.

(** C8, as the script has it.  Input resolution does not compare REPO_TEAM
    with the enumerated team names.  It refuses a run, before any exchange
    with the API, only when a required variable is unset or empty; otherwise
    it returns a request whose team is the table lookup of the value, which
    is a team record exactly when the value is one of the enumerated names. *)
Theorem getInput_team_not_validated env :
  (required_present env = true → ∃ input, getInput env = Return input)
  ∧ (∀ input, getInput env = Return input →
       ∃ name, env !! "REPO_TEAM" = Some name ∧ name ≠ ""
               ∧ repoTeam input = lookupTeam name
               ∧ ((∃ t, repoTeam input = KnownTeam t) ↔ name ∈ RepoTeamName))
  ∧ (Js.truthy (env !! "REPO_TEAM") = false → ∃ e, getInput env = Throw e)
  ∧ (∀ e, getInput env = Throw e →
       required_present env = false ∧ events (run P env).2 = []).
Proof.
  split_and!.
  - apply getInput_accepts.
  - intros input (_ & name & Hname & Hne & Hteam & _)%getInput_Return.
    exists name. split_and!; [done..|]. rewrite Hteam. apply lookupTeam_known.
  - intros Hteam. destruct (getInput env) as [input|e] eqn:Hinput; [|by eexists].
    apply getInput_Return in Hinput as (Hreq & _). unfold required_present in Hreq.
    rewrite Hteam in Hreq. by rewrite andb_false_r in Hreq.
  - intros e Hinput. split; [by eapply getInput_Throw|by eapply run_rejected].
Qed.

Lemma topicsProvided_spec input :
  topicsProvided input = true
  ↔ ∃ topics, repoTopics input = Some topics ∧ topics !! 0%nat ≠ Some "".
Proof.
  unfold topicsProvided. destruct (repoTopics input) as [topics|].
  - rewrite negb_true_iff, bool_decide_eq_false. split; [by eauto|].
    by intros (? & [= <-] & ?).
  - split; [done|]. by intros (? & ? & _).
Qed.

Lemma topics_not_provided env input :
  getInput env = Return input →
  env !! "REPO_TOPICS" = None ∨ env !! "REPO_TOPICS" = Some "" →
  topicsProvided input = false.
Proof.
  intros (_ & _ & _ & _ & _ & Htopics)%getInput_Return Henv.
  unfold topicsProvided. rewrite Htopics. by destruct Henv as [-> | ->].
Qed.

(** C10. In a run that reaches the test (the input is resolved, the team has
    a name, the repository is created), the topics are replaced if and only if
    the resolved list of topics is defined and its first element is not the
    empty string.  With REPO_TOPICS unset or empty no exchange replaces
    topics, and the exchanges of the run are the creation followed by those
    of fetching and adding the template files. *)
Theorem topics_replaced_iff_provided env input team st :
  Js.truthy (ApiToken env) = true →
  getInput env = Return input →
  teamName (repoTeam input) = Return team →
  api_createInOrg P [] (repoName input) (repoOwner input) (repoDescription input)
  = Return st →
  (Exists (λ ev, is_topics ev = true) (events (run P env).2)
   ↔ ∃ topics, repoTopics input = Some topics ∧ topics !! 0%nat ≠ Some "")
  ∧ (env !! "REPO_TOPICS" = None ∨ env !! "REPO_TOPICS" = Some "" →
     Forall (λ ev, is_topics ev = false) (events (run P env).2)
     ∧ events (run P env).2
       = events (populate P input (after_creation input team st initial)).2).
Proof.
  intros Htoken Hinput Hteam Hcreate.
  rewrite run_events by done.
  destruct (main_resolved env input initial Hinput) as [_ ->].
  destruct (scaffold_events input initial team st Hteam Hcreate)
    as (new & Hev & Hiff & Hskip).
  simpl in Hev. rewrite app_nil_r in Hev. rewrite Hev. split.
  - by rewrite Hiff, topicsProvided_spec.
  - intros Henv. pose proof (topics_not_provided env input Hinput Henv) as Hno.
    rewrite <- Hev, (Hskip Hno). split; [|done].
    destruct (populate_events input (after_creation input team st initial))
      as (new' & -> & Hnew').
    apply Forall_app_2; [done|]. simpl. by repeat constructor.
Qed.

End Run.

(** ** The path model on examples *)

Example basename_examples :
  map Path.basename ["bun/src/README.njk"; "a"; "/a"; "a//b"; "a/b/"; ""; "///"]
  = ["README.njk"; "a"; "a"; "b"; "b"; ""; ""].
Proof. vm_compute. reflexivity. Qed.

Example dirname_examples :
  map Path.dirname ["bun/src/README.njk"; "a"; "/a"; "//a"; "a//b"; "a/b/"; ""; "///"]
  = ["bun/src"; "."; "/"; "//"; "a/"; "a"; "."; "/"].
Proof. vm_compute. reflexivity. Qed.

Example join_examples :
  map Path.join [["bun/src"; "README.md"]; ["."; "README.md"]; ["a//b/../c/."; "x.njk"];
                 ["/"; "x"]; [""; ""]; ["../a"; "../../b"]]
  = ["bun/src/README.md"; "README.md"; "a/c/x.njk"; "/x"; "."; "../../b"].
Proof. vm_compute. reflexivity. Qed.

(** ** The script on the sample platform *)

Lemma sample_getInput : getInput Sample.env = Return Sample.input.
Proof. vm_compute. reflexivity. Qed.

Lemma renderFileData_verbatim_witness :
  (renderFileData Sample.platform (Sample.fileEntry "bun/LICENSE" (Some "TUlU"))
     Sample.input initial).1
  = Return (Some {| out_path := "bun/LICENSE"; out_content := "MIT" |}).
Proof.
  apply (renderFileData_verbatim Sample.platform
           (Sample.fileEntry "bun/LICENSE" (Some "TUlU")) Sample.input initial "TUlU");
    [reflexivity|discriminate|reflexivity].
Defined.

(** C1, as the spec has it, fails: the entry [bun/.gitkeep] has a content
    payload, the empty one of an empty file, and its path does not end with
    [.njk], yet the renderer returns [undefined] and no rendered file. *)
Lemma renderFileData_empty_payload_skipped :
  entry_content (Sample.fileEntry "bun/.gitkeep" (Some "")) = Some ""
  ∧ Js.endsWith (entry_path (Sample.fileEntry "bun/.gitkeep" (Some ""))) ".njk" = false
  ∧ (renderFileData Sample.platform (Sample.fileEntry "bun/.gitkeep" (Some ""))
       Sample.input initial).1 = Return None
  ∧ (renderFileData Sample.platform (Sample.fileEntry "bun/.gitkeep" (Some ""))
       Sample.input initial).1
    ≠ Return (Some {| out_path := "bun/.gitkeep";
                      out_content := decodeBase64 Sample.platform "" |}).
Proof. split_and!; [reflexivity..|discriminate]. Qed.

Lemma component_bun : Forall component ["bun"].
Proof. repeat constructor; discriminate. Defined.

Lemma renderFileData_renames_witness :
  (renderFileData Sample.platform
     (Sample.fileEntry "bun/README.njk" (Some "IyB7eyByZXBvTmFtZSB9fQ=="))
     Sample.input initial).1
  = Return (Some {| out_path := "bun/README.md"; out_content := "# foo" |})
  ∧ (renderFileData Sample.platform
       (Sample.fileEntry "bun/package.njk" (Some "e25hbWU6IHt7IHJlcG9OYW1lIH19fQ=="))
       Sample.input initial).1
    = Return (Some {| out_path := "bun/package.json"; out_content := "{name: foo}" |}).
Proof.
  split.
  - apply (proj1 (renderFileData_renames Sample.platform
             (Sample.fileEntry "bun/README.njk" (Some "IyB7eyByZXBvTmFtZSB9fQ=="))
             Sample.input initial ["bun"] "IyB7eyByZXBvTmFtZSB9fQ==" "# foo"
             component_bun eq_refl ltac:(discriminate) eq_refl)).
    reflexivity.
  - apply (proj2 (renderFileData_renames Sample.platform
             (Sample.fileEntry "bun/package.njk" (Some "e25hbWU6IHt7IHJlcG9OYW1lIH19fQ=="))
             Sample.input initial ["bun"] "e25hbWU6IHt7IHJlcG9OYW1lIH19fQ==" "{name: foo}"
             component_bun eq_refl ltac:(discriminate) eq_refl)).
    reflexivity.
Defined.

Lemma renderFileData_keeps_other_names_witness :
  ∃ out,
    (renderFileData Sample.platform
       (Sample.fileEntry "bun/other.njk" (Some "IyB7eyByZXBvTmFtZSB9fQ=="))
       Sample.input initial).1 = Return (Some out)
    ∧ Path.basename (out_path out) = "other.njk"
    ∧ out_content out = "# foo".
Proof.
  destruct (renderFileData_keeps_other_names Sample.platform
              (Sample.fileEntry "bun/other.njk" (Some "IyB7eyByZXBvTmFtZSB9fQ=="))
              Sample.input initial "IyB7eyByZXBvTmFtZSB9fQ==" "# foo"
              eq_refl ltac:(discriminate) eq_refl ltac:(discriminate) ltac:(discriminate)
              eq_refl)
    as (out & Hout & Hbase & _ & Hcontent & _).
  exists out. split; [exact Hout|]. split; [exact Hbase|exact Hcontent].
Defined.

Example renderFileData_other_njk :
  (renderFileData Sample.platform
     (Sample.fileEntry "bun/other.njk" (Some "IyB7eyByZXBvTmFtZSB9fQ=="))
     Sample.input initial).1
  = Return (Some {| out_path := "bun/other.njk"; out_content := "# foo" |}).
Proof. reflexivity. Qed.

Lemma getTemplateFiles_fail_closed_witness :
  (getTemplateFiles Sample.missingFile Sample.input initial).1 = Return []
  ∧ Exists (λ ev, fetch_failed ev = true)
      (events (getTemplateFiles Sample.missingFile Sample.input initial).2).
Proof.
  destruct (getTemplateFiles_fail_closed Sample.missingFile Sample.input initial)
    as (files & new & Hret & Hev & Hfail & _).
  simpl in Hev. rewrite app_nil_r in Hev.
  assert (Exists (λ ev, fetch_failed ev = true)
            (events (getTemplateFiles Sample.missingFile Sample.input initial).2)) as Hex.
  { vm_compute. apply Exists_cons_hd. reflexivity. }
  split; [|exact Hex]. rewrite Hev in Hex. rewrite Hret, (Hfail Hex). reflexivity.
Defined.

Example getTemplateFiles_missing_file :
  (getTemplateFiles Sample.missingFile Sample.input initial).1 = Return [].
Proof. vm_compute. reflexivity. Qed.

Lemma getTemplateFiles_from_tree_witness :
  ∃ nodes,
    nodes `sublist_of` Sample.listing
    ∧ Forall2 (rendered_from Sample.platform Sample.input
                 (events (getTemplateFiles_try Sample.platform Sample.input initial).2))
        nodes
        [ {| out_path := "bun/README.md"; out_content := "# foo" |};
          {| out_path := "bun/package.json"; out_content := "{name: foo}" |};
          {| out_path := "bun/src/index.ts"; out_content := "console.log(1)" |};
          {| out_path := "bun/LICENSE"; out_content := "MIT" |} ].
Proof.
  destruct (getTemplateFiles_from_tree Sample.platform Sample.input initial
              [ {| out_path := "bun/README.md"; out_content := "# foo" |};
                {| out_path := "bun/package.json"; out_content := "{name: foo}" |};
                {| out_path := "bun/src/index.ts"; out_content := "console.log(1)" |};
                {| out_path := "bun/LICENSE"; out_content := "MIT" |} ]
              (getTemplateFiles_try Sample.platform Sample.input initial).2
              ltac:(vm_compute; reflexivity))
    as (_ & tree & nodes & Htree & Hsub & Hfrom).
  injection Htree as <-. exists nodes. split; [exact Hsub|exact Hfrom].
Defined.

Lemma no_content_no_file_witness :
  renderFileData Sample.platform (Sample.fileEntry "bun/LICENSE" None) Sample.input initial
  = (Return None, initial)
  ∧ (getTemplateFiles Sample.platform Sample.input initial).1
    = Return [ {| out_path := "bun/README.md"; out_content := "# foo" |};
               {| out_path := "bun/package.json"; out_content := "{name: foo}" |};
               {| out_path := "bun/src/index.ts"; out_content := "console.log(1)" |};
               {| out_path := "bun/LICENSE"; out_content := "MIT" |} ].
Proof.
  split.
  - apply (proj1 (no_content_no_file Sample.platform Sample.input)
             (Sample.fileEntry "bun/LICENSE" None) initial). reflexivity.
  - vm_compute. reflexivity.
Defined.


Lemma Marketing_not_enumerated : ¬ ("Marketing" ∈ RepoTeamName).
Proof.
  intros Hin. unfold RepoTeamName in Hin.
  repeat (apply elem_of_cons in Hin as [Heq|Hin]; [discriminate Heq|]).
  exact (proj1 (elem_of_nil _) Hin).
Defined.

(** C8, as the spec has it, fails: REPO_TEAM is [Marketing], which is not one
    of the enumerated team names, yet input resolution returns a request, and
    the team of the request is [undefined]. *)
Lemma getInput_unknown_team_not_rejected :
  Sample.env_marketing !! "REPO_TEAM" = Some "Marketing"
  ∧ ¬ ("Marketing" ∈ RepoTeamName)
  ∧ ∃ input, getInput Sample.env_marketing = Return input ∧ repoTeam input = NoTeam.
Proof.
  split; [reflexivity|]. split; [exact Marketing_not_enumerated|].
  eexists. split; [vm_compute; reflexivity|reflexivity].
Qed.

Lemma getInput_team_not_validated_witness :
  ∃ input, getInput Sample.env_marketing = Return input
           ∧ repoTeam input = lookupTeam "Marketing"
           ∧ ¬ ∃ t, repoTeam input = KnownTeam t.
Proof.
  destruct (getInput_team_not_validated Sample.platform Sample.env_marketing)
    as (Haccepts & Hteam & _).
  destruct (Haccepts ltac:(reflexivity)) as [input Hinput].
  destruct (Hteam input Hinput) as (name & Hname & _ & Hlookup & Hknown).
  injection Hname as <-.
  exists input. split; [exact Hinput|]. split; [exact Hlookup|].
  intros Hex. apply Hknown in Hex. exact (Marketing_not_enumerated Hex).
Defined.

(** With [Marketing] the run stops when it reads the name of the team, before
    any exchange; with [constructor], which every object inherits, the run
    goes on and creates the repository. *)
Example run_marketing :
  (run Sample.platform Sample.env_marketing).1 = 0
  ∧ events (run Sample.platform Sample.env_marketing).2 = []
  ∧ head (console (run Sample.platform Sample.env_marketing).2)
    = Some (ErrorObject
              (TypeError "Cannot read properties of undefined (reading 'name')")).
Proof. vm_compute. repeat split; reflexivity. Qed.

Example run_constructor :
  last (events (run Sample.platform Sample.env_constructor).2)
  = Some (CreateInOrg "foo" "liatrio" None (Return 201)).
Proof. vm_compute. reflexivity. Qed.

(** C9.  The organization refuses the creation: the request throws, the
    handler logs the error, and the process ends with the exit code 0. *)
Theorem run_refused_creation_exits_zero :
  (run Sample.refusing Sample.env).1 = 0
  ∧ events (run Sample.refusing Sample.env).2
    = [CreateInOrg "foo" "liatrio" None
         (Throw (RequestError 422 "name already exists on this account"))]
  ∧ take 2 (console (run Sample.refusing Sample.env).2)
    = [ErrorObject (RequestError 422 "name already exists on this account");
       Line LError "[ERROR][main] Error caught when creating and initializing repo"].
Proof. vm_compute. repeat split; reflexivity. Qed.

(** A run that succeeds ends with the exit code 0 as well, after the four
    files of the variant are written. *)
Example run_sample :
  (run Sample.platform Sample.env).1 = 0
  ∧ omap (λ ev, match ev with
                | CreateOrUpdateFileContents _ _ path _ _ (Return 201) => Some path
                | _ => None
                end) (rev (events (run Sample.platform Sample.env).2))
    = ["bun/README.md"; "bun/package.json"; "bun/src/index.ts"; "bun/LICENSE"].
Proof. vm_compute. split; reflexivity. Qed.

Lemma topics_replaced_iff_provided_witness :
  Forall (λ ev, is_topics ev = false) (events (run Sample.platform Sample.env).2)
  ∧ Exists (λ ev, is_topics ev = true) (events (run Sample.platform Sample.env_topics).2).
Proof.
  split.
  - apply (proj2 (topics_replaced_iff_provided Sample.platform Sample.env Sample.input
                    (Some "Platform") 201 eq_refl sample_getInput eq_refl eq_refl)).
    right. reflexivity.
  - destruct (getInput Sample.env_topics) as [input|e] eqn:Hinput;
      [|vm_compute in Hinput; discriminate Hinput].
    apply (proj1 (topics_replaced_iff_provided Sample.platform Sample.env_topics input
                    (Some "Platform") 201 eq_refl Hinput
                    ltac:(vm_compute in Hinput; injection Hinput as <-; reflexivity)
                    eq_refl)).
    exists ["bun"; "starter"]. vm_compute in Hinput. injection Hinput as <-.
    split; [reflexivity|discriminate].
Defined.

Example run_topics :
  filter (λ ev, is_topics ev = true) (events (run Sample.platform Sample.env_topics).2)
  = [ReplaceAllTopics ["bun"; "starter"] "foo" "liatrio" (Return 200)].
Proof. vm_compute. reflexivity. Qed.

(** * Further properties *)

(** ** The requests of the fetcher *)

Section FetcherRequests.

Context (P : Platform).

Implicit Types (input : UserInput) (w : World) (tree : list TreeNode).

(** The renderer throws exactly what the engine throws. *)
Lemma renderFileData_engine_error f input w c e :
  entry_content f = Some c → c ≠ "" → Js.endsWith (entry_path f) ".njk" = true →
  renderString P (decodeBase64 P c) input = Throw e →
  (renderFileData P f input w).1 = Throw e.
Proof.
  intros Hc Hne Hend Hr. by rewrite (renderFileData_template P f input w c), Hr.
Qed.

(** The loop over the tree, exchange by exchange: one content request per
    node under the variant directory, in the order of the tree, up to the
    first failure; when the loop ends normally every node was asked, every
    answer had the status 200 and every entry was rendered without an error. *)
Lemma fetchTree_trace input tree : ∀ acc w,
  ∃ answers,
    events (fetchTree P input tree acc w).2
    = rev (zip_with (fetch_of input) (filter (λ n, inTemplateDir input n = true) tree)
             answers) ++ events w
    ∧ (length answers ≤ length (filter (λ n, inTemplateDir input n = true) tree))%nat
    ∧ ∀ files, (fetchTree P input tree acc w).1 = Return files →
        length answers = length (filter (λ n, inTemplateDir input n = true) tree)
        ∧ Forall (λ a, ∃ data out, a = Return (200, data)
                       ∧ ∀ w0, (renderFileData P data input w0).1 = Return out) answers.
Proof.
  induction tree as [|n rest IH]; intros acc w.
  { exists []. split_and!; [done..|]. by intros files _. }
  simpl. destruct (inTemplateDir input n) eqn:Hin.
  2:{ rewrite filter_cons_False by (by rewrite Hin). apply IH. }
  rewrite filter_cons_True by done.
  set (nodes := filter _ rest).
  unfold mbind, M_bind, bind, getContent, exchange. simpl.
  destruct (api_getContent P (events w) (repoOwner input) (templateRepoName input)
              (default "" (node_path n))) as [[status data]|e] eqn:Hres; simpl.
  2:{ exists [Throw e]. simpl. split_and!; [by destruct nodes|lia|done]. }
  case_bool_decide as Hstatus; simpl.
  2:{ exists [Return (status, data)]. simpl. split_and!; [by destruct nodes|lia|done]. }
  subst status. set (w2 := {| events := _; console := _ |}).
  pose proof (renderFileData_events P data input w2) as Hevents.
  pose proof (renderFileData_result P data input w2) as Hsame.
  destruct (renderFileData P data input w2) as [[rendered|e] w3]; simpl in *.
  2:{ exists [Return (200, data)]. simpl. rewrite Hevents.
      split_and!; [by destruct nodes|lia|done]. }
  subst nodes.
  match goal with |- context [fetchTree P input rest ?a w3] =>
    destruct (IH a w3) as (answers & Hev & Hlen & Hok) end.
  exists (Return (200, data) :: answers). simpl.
  rewrite Hev, Hevents, <- app_assoc. split_and!; [done|lia|].
  intros files Hfiles. destruct (Hok files Hfiles) as [Hlen' Hall].
  split; [by rewrite Hlen'|]. constructor; [|done].
  exists data, rendered. split; [done|]. intros w0. by rewrite <- Hsame.
Qed.

Lemma getTemplateFiles_try_trace input w :
  ∃ answers,
    events (getTemplateFiles_try P input w).2
    = rev (GetTree (repoOwner input) (templateRepoName input) "main"
             (api_getTree P (events w) (repoOwner input) (templateRepoName input) "main")
           :: zip_with (fetch_of input)
                (template_nodes input
                   (api_getTree P (events w) (repoOwner input) (templateRepoName input)
                      "main")) answers) ++ events w
    ∧ (length answers
       ≤ length (template_nodes input
                   (api_getTree P (events w) (repoOwner input) (templateRepoName input)
                      "main")))%nat
    ∧ ∀ files, (getTemplateFiles_try P input w).1 = Return files →
        length answers
        = length (template_nodes input
                    (api_getTree P (events w) (repoOwner input) (templateRepoName input)
                       "main"))
        ∧ Forall (λ a, ∃ data out, a = Return (200, data)
                       ∧ ∀ w0, (renderFileData P data input w0).1 = Return out) answers.
Proof.
  unfold getTemplateFiles_try, mbind, M_bind, bind, exchange. simpl.
  destruct (api_getTree P (events w) (repoOwner input) (templateRepoName input) "main")
    as [[status tree]|e] eqn:Hres; simpl.
  2:{ exists []. split_and!; [done..|]. by intros files [=]. }
  case_bool_decide as Hstatus; simpl.
  2:{ exists []. split_and!; [done..|]. by intros files [=]. }
  subst status. set (w1 := {| events := _; console := _ |}).
  destruct (fetchTree_trace input tree [] w1) as (answers & Hev & Hlen & Hok).
  exists answers. rewrite Hev. simpl. rewrite <- app_assoc. by split_and!.
Qed.

Lemma getTemplateFiles_same_events input w :
  events (getTemplateFiles P input w).2 = events (getTemplateFiles_try P input w).2.
Proof.
  rewrite getTemplateFiles_unfold.
  by destruct (getTemplateFiles_try P input w) as [[files|e] w'].
Qed.

(** The loop over the tree stops at the first failure: every answer but the
    last let the loop go on, and when the loop throws the last answer is what
    stopped it. *)
Lemma fetchTree_stops input tree : ∀ acc w,
  ∃ answers,
    events (fetchTree P input tree acc w).2
    = rev (zip_with (fetch_of input) (filter (λ n, inTemplateDir input n = true) tree)
             answers) ++ events w
    ∧ (length answers ≤ length (filter (λ n, inTemplateDir input n = true) tree))%nat
    ∧ match (fetchTree P input tree acc w).1 with
      | Return _ =>
          length answers = length (filter (λ n, inTemplateDir input n = true) tree)
          ∧ Forall (fetched_fine P input) answers
      | Throw e =>
          ∃ fine last, answers = fine ++ [last]
                       ∧ Forall (fetched_fine P input) fine
                       ∧ fetch_stopped P input e last
      end.
Proof.
  induction tree as [|n rest IH]; intros acc w.
  { exists []. by split_and!. }
  simpl. destruct (inTemplateDir input n) eqn:Hin.
  2:{ rewrite filter_cons_False by (by rewrite Hin). apply IH. }
  rewrite filter_cons_True by done.
  set (nodes := filter _ rest).
  unfold mbind, M_bind, bind, getContent, exchange. simpl.
  destruct (api_getContent P (events w) (repoOwner input) (templateRepoName input)
              (default "" (node_path n))) as [[status data]|e] eqn:Hres; simpl.
  2:{ exists [Throw e]. simpl. split_and!; [by destruct nodes|lia|].
      exists [], (Throw e). split_and!; [done..|by left]. }
  case_bool_decide as Hstatus; simpl.
  2:{ exists [Return (status, data)]. simpl. split_and!; [by destruct nodes|lia|].
      exists [], (Return (status, data)). split_and!; [done..|]. right. left. eauto. }
  subst status. set (w2 := {| events := _; console := _ |}).
  pose proof (renderFileData_events P data input w2) as Hevents.
  pose proof (renderFileData_result P data input w2) as Hsame.
  destruct (renderFileData P data input w2) as [[rendered|e] w3]; simpl in *.
  2:{ exists [Return (200, data)]. simpl. rewrite Hevents.
      split_and!; [by destruct nodes|lia|].
      exists [], (Return (200, data)). split_and!; [done..|]. right. right.
      exists data. split; [done|]. intros w0. by rewrite <- Hsame. }
  subst nodes.
  assert (fetched_fine P input (Return (200, data))) as Hfine.
  { exists data, rendered. split; [done|]. intros w0. by rewrite <- Hsame. }
  match goal with |- context [fetchTree P input rest ?a w3] =>
    destruct (IH a w3) as (answers & Hev & Hlen & Hres');
    destruct (fetchTree P input rest a w3) as [[files|e] w4] end; simpl in *.
  - destruct Hres' as [Hlen' Hall].
    exists (Return (200, data) :: answers). simpl.
    rewrite Hev, Hevents, <- app_assoc. split_and!; [done|lia|by rewrite Hlen'|].
    by constructor.
  - destruct Hres' as (fine & last & -> & Hall & Hstop).
    exists (Return (200, data) :: fine ++ [last]). simpl.
    rewrite Hev, Hevents, <- app_assoc. split_and!; [done|simpl in Hlen; lia|].
    exists (Return (200, data) :: fine), last. split_and!; [done| |done].
    by constructor.
Qed.

Lemma getTemplateFiles_try_stops input w :
  ∃ answers,
    events (getTemplateFiles_try P input w).2
    = rev (GetTree (repoOwner input) (templateRepoName input) "main"
             (api_getTree P (events w) (repoOwner input) (templateRepoName input) "main")
           :: zip_with (fetch_of input)
                (template_nodes input
                   (api_getTree P (events w) (repoOwner input) (templateRepoName input)
                      "main")) answers) ++ events w
    ∧ (length answers
       ≤ length (template_nodes input
                   (api_getTree P (events w) (repoOwner input) (templateRepoName input)
                      "main")))%nat
    ∧ match (getTemplateFiles_try P input w).1 with
      | Return _ =>
          length answers
          = length (template_nodes input
                      (api_getTree P (events w) (repoOwner input)
                         (templateRepoName input) "main"))
          ∧ Forall (fetched_fine P input) answers
      | Throw e =>
          answers = []
          ∧ succeeded (api_getTree P (events w) (repoOwner input)
                         (templateRepoName input) "main") = false
          ∨ ∃ fine last, answers = fine ++ [last]
                         ∧ Forall (fetched_fine P input) fine
                         ∧ fetch_stopped P input e last
      end.
Proof.
  unfold getTemplateFiles_try, mbind, M_bind, bind, exchange. simpl.
  destruct (api_getTree P (events w) (repoOwner input) (templateRepoName input) "main")
    as [[status tree]|e] eqn:Hres; simpl.
  2:{ exists []. split_and!; [done..|by left]. }
  case_bool_decide as Hstatus; simpl.
  2:{ exists []. split_and!; [done..|by left]. }
  subst status. set (w1 := {| events := _; console := _ |}).
  destruct (fetchTree_stops input tree [] w1) as (answers & Hev & Hlen & Hres').
  exists answers. rewrite Hev. simpl. rewrite <- app_assoc.
  split_and!; [done..|].
  destruct (fetchTree P input tree [] w1) as [[files|e] w2]; simpl in *; [done|].
  by right.
Qed.

(** X1. The fetcher asks for the tree of [main] of the template repository
    once, and then for the content of the blobs under the variant directory
    only, one request per node, in the order of the listing, and it stops at
    the first failure.  When its [try] block ends normally every node was
    asked and every answer was a 200 with an entry that rendered.  When the
    block throws, either the tree request failed and no content was asked, or
    every answer but the last was such a success and the last one is the
    failure: a request that threw, a status other than 200, or an entry the
    engine refused; nothing is requested after it. *)
Theorem getTemplateFiles_requests input w :
  ∃ answers,
    events (getTemplateFiles P input w).2
    = rev (GetTree (repoOwner input) (templateRepoName input) "main"
             (api_getTree P (events w) (repoOwner input) (templateRepoName input) "main")
           :: zip_with (fetch_of input)
                (template_nodes input
                   (api_getTree P (events w) (repoOwner input) (templateRepoName input)
                      "main")) answers) ++ events w
    ∧ (length answers
       ≤ length (template_nodes input
                   (api_getTree P (events w) (repoOwner input) (templateRepoName input)
                      "main")))%nat
    ∧ (∀ files, (getTemplateFiles_try P input w).1 = Return files →
         length answers
         = length (template_nodes input
                     (api_getTree P (events w) (repoOwner input) (templateRepoName input)
                        "main"))
         ∧ Forall (fetched_fine P input) answers)
    ∧ (∀ e, (getTemplateFiles_try P input w).1 = Throw e →
         answers = []
         ∧ succeeded (api_getTree P (events w) (repoOwner input)
                        (templateRepoName input) "main") = false
         ∨ ∃ fine last, answers = fine ++ [last]
                        ∧ Forall (fetched_fine P input) fine
                        ∧ fetch_stopped P input e last).
Proof.
  destruct (getTemplateFiles_try_stops input w) as (answers & Hev & Hlen & Hres).
  exists answers. rewrite getTemplateFiles_same_events. split_and!; [done..| |].
  - intros files Hfiles. by rewrite Hfiles in Hres.
  - intros e He. by rewrite He in Hres.
Qed.

(** X2. A template the engine refuses empties the fetch: when the engine
    throws on an entry whose content was fetched, the fetcher catches the
    error and returns no file at all. *)
Theorem template_error_empties_fetch input w new owner repo p status data c e :
  events (getTemplateFiles P input w).2 = new ++ events w →
  GetContent owner repo p (Return (status, data)) ∈ new →
  entry_content data = Some c → c ≠ "" → Js.endsWith (entry_path data) ".njk" = true →
  renderString P (decodeBase64 P c) input = Throw e →
  (getTemplateFiles P input w).1 = Return [].
Proof.
  intros Hnew Hin Hc Hne Hend Hthrow.
  rewrite getTemplateFiles_same_events in Hnew. rewrite getTemplateFiles_unfold.
  destruct (getTemplateFiles_try_trace input w) as (answers & Hev & _ & Hok).
  destruct (getTemplateFiles_try P input w) as [[files|e'] w'] eqn:Htry; [|done].
  exfalso. simpl in *. destruct (Hok files eq_refl) as [_ Hall].
  rewrite Hev in Hnew. apply app_inv_tail in Hnew. subst new.
  simpl in Hin. apply elem_of_app in Hin as [Hin|[=]%list_elem_of_singleton].
  apply list_elem_of_In, in_rev, list_elem_of_In in Hin.
  apply elem_of_zip_with in Hin as (n & a & Heq & _ & Ha).
  injection Heq as _ _ _ <-.
  rewrite Forall_forall in Hall. destruct (Hall _ Ha) as (data' & out & [= _ <-] & Hout).
  specialize (Hout w). by rewrite (renderFileData_engine_error data input w c e) in Hout.
Qed.

End FetcherRequests.

(** ** The requests of a run *)

Section RunRequests.

Context (P : Platform).

Implicit Types (env : Env) (input : UserInput) (w : World).

(** The loop that adds the files, exchange by exchange. *)
Lemma addFiles_trace input files : ∀ acc w,
  ∃ answers,
    events (addFiles P input files acc w).2
    = rev (zip_with (write_of P input) files answers) ++ events w
    ∧ match (addFiles P input files acc w).1 with
      | Return added =>
          ∃ statuses, answers = Return <$> statuses
                      ∧ length statuses = length files
                      ∧ added = acc ++ accepted files statuses
      | Throw e =>
          ∃ statuses, answers = (Return <$> statuses) ++ [Throw e]
                      ∧ (length statuses < length files)%nat
      end.
Proof.
  induction files as [|f rest IH]; intros acc w.
  { exists []. split; [done|]. exists []. by rewrite app_nil_r. }
  simpl. unfold mbind, M_bind, bind, exchange. simpl.
  destruct (api_createOrUpdateFileContents P _ _ _ _ _ _) as [status|e] eqn:Hres; simpl.
  2:{ exists [Throw e]. split; [by destruct rest|]. exists []. split; [done|simpl; lia]. }
  match goal with |- context [addFiles P input rest ?a ?w1] =>
    destruct (IH a w1) as (answers & Hev & Hres');
    destruct (addFiles P input rest a w1) as [[added|e] w2] end; simpl in *.
  - destruct Hres' as (statuses & -> & Hlen & ->).
    exists (Return status :: (Return <$> statuses)). simpl. rewrite Hev, <- app_assoc.
    split; [done|]. exists (status :: statuses). split_and!; [done|simpl; lia|].
    unfold accepted. simpl. case_bool_decide; [|done]. by rewrite <- app_assoc.
  - destruct Hres' as (statuses & -> & Hlen).
    exists (Return status :: (Return <$> statuses) ++ [Throw e]). simpl.
    rewrite Hev, <- app_assoc. split; [done|].
    exists (status :: statuses). split; [done|simpl; lia].
Qed.

(** X3. The files are added in the order they were rendered, one request per
    file, each with the base64 of the rendered content under the rendered
    path; a status other than 201 does not stop the loop, an error does, and
    no file after it is attempted; the additions counted are the files
    answered with 201. *)
Theorem addFiles_in_order input files acc w :
  ∃ answers,
    events (addFiles P input files acc w).2
    = rev (zip_with (write_of P input) files answers) ++ events w
    ∧ match (addFiles P input files acc w).1 with
      | Return added =>
          ∃ statuses, answers = Return <$> statuses
                      ∧ length statuses = length files
                      ∧ added = acc ++ accepted files statuses
      | Throw e =>
          ∃ statuses, answers = (Return <$> statuses) ++ [Throw e]
                      ∧ (length statuses < length files)%nat
      end.
Proof. apply addFiles_trace. Qed.

Lemma Forall_zip_with_all {A B C} (g : A → B → C) (Q : C → Prop) l k :
  (∀ a b, Q (g a b)) → Forall Q (zip_with g l k).
Proof.
  intros Hg. apply Forall_forall. intros c (a & b & -> & _)%elem_of_zip_with. apply Hg.
Qed.

(** The last steps of a run: the exchanges of the fetcher, then those of the
    additions, which are none when a fetch failed. *)
Lemma populate_trace input w :
  ∃ files fetches writes,
    (getTemplateFiles P input w).1 = Return files
    ∧ events (populate P input w).2 = rev (fetches ++ writes) ++ events w
    ∧ Forall (λ ev, is_fetch ev = true) fetches
    ∧ Forall (λ ev, is_write ev = true) writes
    ∧ (length writes ≤ length files)%nat
    ∧ (Exists (λ ev, fetch_failed ev = true) fetches → files = []).
Proof.
  destruct (getTemplateFiles_try_trace P input w) as (answers & Hev & _).
  destruct (getTemplateFiles_try_spec P input w) as (new & Hnew & _ & Hok).
  rewrite Hev in Hnew. apply app_inv_tail in Hnew.
  pose proof (getTemplateFiles_same_events P input w) as Hsame.
  pose proof (getTemplateFiles_unfold P input w) as Hunfold.
  unfold populate, mbind, M_bind, bind.
  destruct (getTemplateFiles P input w) as [res w1]. simpl in Hsame.
  assert (∃ files, res = Return files
                   ∧ ((getTemplateFiles_try P input w).1 = Return files ∨ files = []))
    as (files & -> & Hfiles).
  { destruct (getTemplateFiles_try P input w) as [[files|e] w'];
      injection Hunfold as -> _; eauto. }
  destruct (addFiles_trace input files [] w1) as (wanswers & Hwev & _).
  exists files,
    (GetTree (repoOwner input) (templateRepoName input) "main"
       (api_getTree P (events w) (repoOwner input) (templateRepoName input) "main")
     :: zip_with (fetch_of input)
          (template_nodes input
             (api_getTree P (events w) (repoOwner input) (templateRepoName input) "main"))
          answers),
    (zip_with (write_of P input) files wanswers).
  split; [done|]. split.
  { rewrite rev_app_distr, <- app_assoc, <- Hev, <- Hsame, <- Hwev.
    by destruct (addFiles P input files [] w1) as [[added|e] w2]. }
  split_and!.
  - constructor; [done|]. by apply Forall_zip_with_all.
  - by apply Forall_zip_with_all.
  - rewrite length_zip_with. lia.
  - intros Hex. destruct Hfiles as [Hfiles|]; [|done]. exfalso.
    apply Exists_exists in Hex as (ev & Hin & Hfail).
    destruct (Hok files Hfiles) as [Hall _]. rewrite <- Hnew in Hall.
    rewrite Forall_forall in Hall.
    rewrite (Hall ev) in Hfail; [done|].
    apply list_elem_of_In. apply -> in_rev. by apply list_elem_of_In.
Qed.

(** A run from the creation on, exchange by exchange. *)
Lemma scaffold_trace input w team :
  teamName (repoTeam input) = Return team →
  ∃ topics fetches writes,
    events (scaffold P input w).2
    = rev (CreateInOrg (repoName input) (repoOwner input) (repoDescription input)
             (api_createInOrg P (events w) (repoName input) (repoOwner input)
                (repoDescription input))
           :: topics ++ fetches ++ writes) ++ events w
    ∧ (topics = []
       ∨ topicsProvided input = true
         ∧ ∃ res, topics = [ReplaceAllTopics (default [] (repoTopics input))
                              (repoName input) (repoOwner input) res])
    ∧ Forall (λ ev, is_fetch ev = true) fetches
    ∧ Forall (λ ev, is_write ev = true) writes
    ∧ (∀ e, api_createInOrg P (events w) (repoName input) (repoOwner input)
              (repoDescription input) = Throw e → topics ++ fetches ++ writes = [])
    ∧ (Exists (λ ev, threw ev = true) topics → fetches ++ writes = [])
    ∧ (Exists (λ ev, fetch_failed ev = true) fetches → writes = []).
Proof.
  intros Hteam. unfold scaffold, mbind, M_bind, bind, lift, exchange, print.
  rewrite Hteam. simpl.
  destruct (api_createInOrg P (events w) (repoName input) (repoOwner input)
              (repoDescription input)) as [st|e] eqn:Hcreate; simpl.
  2:{ exists [], [], []. split_and!; try done; [by left|by intros ?%Exists_nil..]. }
  destruct (topicsProvided input) eqn:Hguard; simpl.
  - destruct (api_replaceAllTopics P _ _ _ _) as [tst|e] eqn:Htopics; simpl.
    + match goal with |- context [populate P input ?w1] =>
        destruct (populate_trace input w1)
          as (files & fetches & writes & _ & Hev & Hf & Hw & Hlen & Hfail) end.
      eexists [_], fetches, writes. rewrite Hev. simpl.
      rewrite <- !app_assoc. simpl. split_and!; try done.
      * right. split; [done|]. by eexists.
      * intros [Hthrew|?%Exists_nil]%Exists_cons; [by simpl in Hthrew|done].
      * intros Hex. specialize (Hfail Hex). subst files.
        destruct writes; [done|simpl in Hlen; lia].
    + eexists [_], [], []. simpl. split_and!; try done.
      right. split; [done|]. by eexists.
  - change ((mret tt ≫= λ _ : (), populate P input)) with (populate P input).
    match goal with |- context [populate P input ?w1] =>
      destruct (populate_trace input w1)
        as (files & fetches & writes & _ & Hev & Hf & Hw & Hlen & Hfail) end.
    exists [], fetches, writes. rewrite Hev. simpl.
    rewrite <- !app_assoc. simpl. split_and!; try done.
    * by left.
    * by intros ?%Exists_nil.
    * intros Hex. specialize (Hfail Hex). subst files.
        destruct writes; [done|simpl in Hlen; lia].
Qed.

Lemma run_trace env input team :
  Js.truthy (ApiToken env) = true →
  getInput env = Return input →
  teamName (repoTeam input) = Return team →
  ∃ topics fetches writes,
    events (run P env).2
    = rev (CreateInOrg (repoName input) (repoOwner input) (repoDescription input)
             (api_createInOrg P [] (repoName input) (repoOwner input)
                (repoDescription input))
           :: topics ++ fetches ++ writes)
    ∧ (topics = []
       ∨ topicsProvided input = true
         ∧ ∃ res, topics = [ReplaceAllTopics (default [] (repoTopics input))
                              (repoName input) (repoOwner input) res])
    ∧ Forall (λ ev, is_fetch ev = true) fetches
    ∧ Forall (λ ev, is_write ev = true) writes
    ∧ (∀ e, api_createInOrg P [] (repoName input) (repoOwner input)
              (repoDescription input) = Throw e → topics ++ fetches ++ writes = [])
    ∧ (Exists (λ ev, threw ev = true) topics → fetches ++ writes = [])
    ∧ (Exists (λ ev, fetch_failed ev = true) fetches → writes = []).
Proof.
  intros Htoken Hinput Hteam. rewrite run_events by done.
  destruct (main_resolved P env input initial Hinput) as [_ ->].
  destruct (scaffold_trace input initial team Hteam)
    as (topics & fetches & writes & Hev & Hrest).
  exists topics, fetches, writes. split; [|done].
  rewrite Hev. simpl. by rewrite app_nil_r.
Qed.

(** X4. A run whose input is resolved and whose team has a name goes through
    its phases in order: the repository is created first, then the topics are
    replaced (one request, only when the test on the topics passes), then the
    template is fetched, then the files are added; no request is made twice
    out of its phase. *)
Theorem run_phases env input team :
  Js.truthy (ApiToken env) = true →
  getInput env = Return input →
  teamName (repoTeam input) = Return team →
  ∃ topics fetches writes,
    rev (events (run P env).2)
    = CreateInOrg (repoName input) (repoOwner input) (repoDescription input)
        (api_createInOrg P [] (repoName input) (repoOwner input) (repoDescription input))
      :: topics ++ fetches ++ writes
    ∧ (topics = []
       ∨ topicsProvided input = true
         ∧ ∃ res, topics = [ReplaceAllTopics (default [] (repoTopics input))
                              (repoName input) (repoOwner input) res])
    ∧ Forall (λ ev, is_fetch ev = true) fetches
    ∧ Forall (λ ev, is_write ev = true) writes.
Proof.
  intros Htoken Hinput Hteam.
  destruct (run_trace env input team Htoken Hinput Hteam)
    as (topics & fetches & writes & Hev & Htopics & Hf & Hw & _).
  exists topics, fetches, writes. rewrite Hev, rev_involutive. by split_and!.
Qed.

(** X5. Nothing is retried and nothing is attempted after a failure of the
    first two phases: if the creation of the repository throws it is the only
    request of the run, and if the replacement of the topics throws no
    template is fetched and no file is added. *)
Theorem failure_stops_run env input team :
  Js.truthy (ApiToken env) = true →
  getInput env = Return input →
  teamName (repoTeam input) = Return team →
  (∀ e, api_createInOrg P [] (repoName input) (repoOwner input) (repoDescription input)
        = Throw e →
        events (run P env).2
        = [CreateInOrg (repoName input) (repoOwner input) (repoDescription input)
             (Throw e)])
  ∧ (Exists (λ ev, is_topics ev = true ∧ threw ev = true) (events (run P env).2) →
     Forall (λ ev, is_fetch ev = false ∧ is_write ev = false) (events (run P env).2)).
Proof.
  intros Htoken Hinput Hteam.
  destruct (run_trace env input team Htoken Hinput Hteam)
    as (topics & fetches & writes & Hev & Htopics & Hf & Hw & Hcreate & Hthrew & _).
  rewrite Hev. split.
  - intros e He. rewrite (Hcreate e He), He. done.
  - intros (ev & Hin & Htop & Hth)%Exists_exists.
    apply list_elem_of_In, in_rev, list_elem_of_In in Hin.
    assert (ev ∈ topics) as Hin'.
    { apply elem_of_cons in Hin as [->|Hin]; [done|].
      apply elem_of_app in Hin as [?|Hin]; [done|]. exfalso.
      rewrite Forall_forall in Hf, Hw.
      apply elem_of_app in Hin as [Hin|Hin];
        [specialize (Hf _ Hin)|specialize (Hw _ Hin)]; by destruct ev. }
    assert (fetches ++ writes = []) as Hnone.
    { apply Hthrew, Exists_exists. eauto. }
    rewrite Hnone, app_nil_r. apply Forall_forall. intros ev' Hin''.
    apply list_elem_of_In, in_rev, list_elem_of_In in Hin''.
    apply elem_of_cons in Hin'' as [->|Hin'']; [done|].
    destruct Htopics as [->|(_ & res & ->)]; [by apply elem_of_nil in Hin''|].
    by apply list_elem_of_singleton in Hin'' as ->.
Qed.

(** X6. When the tree listing or a content fetch fails, no file is added: the
    run leaves the repository it created empty, and still ends with the exit
    code 0. *)
Theorem failed_fetch_no_write env input team :
  Js.truthy (ApiToken env) = true →
  getInput env = Return input →
  teamName (repoTeam input) = Return team →
  Exists (λ ev, fetch_failed ev = true) (events (run P env).2) →
  Forall (λ ev, is_write ev = false) (events (run P env).2)
  ∧ Exists (λ ev, is_creation ev = true) (events (run P env).2)
  ∧ (run P env).1 = 0.
Proof.
  intros Htoken Hinput Hteam Hex.
  destruct (run_trace env input team Htoken Hinput Hteam)
    as (topics & fetches & writes & Hev & Htopics & Hf & Hw & _ & _ & Hfail).
  pose proof (run_exit_code P env) as Hcode. rewrite Htoken in Hcode.
  rewrite Hev in Hex |- *.
  apply Exists_exists in Hex as (ev & Hin & Hfailed).
  apply list_elem_of_In, in_rev, list_elem_of_In in Hin.
  assert (ev ∈ fetches) as Hin'.
  { apply elem_of_cons in Hin as [->|Hin]; [done|].
    apply elem_of_app in Hin as [Hin|Hin].
    { destruct Htopics as [->|(_ & res & ->)]; [by apply elem_of_nil in Hin|].
      by apply list_elem_of_singleton in Hin as ->. }
    apply elem_of_app in Hin as [?|Hin]; [done|]. exfalso.
    rewrite Forall_forall in Hw. specialize (Hw _ Hin). by destruct ev. }
  assert (writes = []) as -> by (apply Hfail, Exists_exists; eauto).
  rewrite app_nil_r. split_and!; [|by apply Exists_app; right; left|done].
  apply Forall_forall. intros ev' Hin''.
  apply list_elem_of_In, in_rev, list_elem_of_In in Hin''.
  apply elem_of_cons in Hin'' as [->|Hin'']; [done|].
  apply elem_of_app in Hin'' as [Hin''|Hin''].
  - destruct Htopics as [->|(_ & res & ->)]; [by apply elem_of_nil in Hin''|].
    by apply list_elem_of_singleton in Hin'' as ->.
  - rewrite Forall_forall in Hf. specialize (Hf _ Hin''). by destruct ev'.
Qed.

(** X7. A run makes no request at all exactly when the table has nothing for
    REPO_TEAM, neither a team record nor an inherited member: reading the name
    of the team throws before the repository is created. *)
Theorem unknown_team_no_request env input :
  Js.truthy (ApiToken env) = true →
  getInput env = Return input →
  (events (run P env).2 = [] ↔ repoTeam input = NoTeam).
Proof.
  intros Htoken Hinput. split.
  - intros Hnone. destruct (teamName (repoTeam input)) as [team|e] eqn:Hteam.
    + destruct (run_trace env input team Htoken Hinput Hteam)
        as (topics & fetches & writes & Hev & _).
      rewrite Hev in Hnone. simpl in Hnone. by apply app_eq_nil in Hnone as [_ [=]].
    + by destruct (repoTeam input).
  - intros Hteam. rewrite run_events by done.
    destruct (main_resolved P env input initial Hinput) as [_ ->].
    unfold scaffold, mbind, M_bind, bind, lift. by rewrite Hteam.
Qed.

(** X8. The exit code of the process is 1 exactly when neither GITHUB_TOKEN
    nor GH_PAT holds a non-empty value, in which case no request is made; it
    is 0 in every other run, whatever failed in it. *)
Theorem exit_code_tells_token env :
  ((run P env).1 = 1
   ↔ Js.truthy (env !! "GITHUB_TOKEN") = false ∧ Js.truthy (env !! "GH_PAT") = false)
  ∧ ((run P env).1 = 1 → events (run P env).2 = [])
  ∧ ((run P env).1 ≠ 1 → (run P env).1 = 0).
Proof.
  rewrite run_exit_code.
  assert (Js.truthy (ApiToken env) = false
          ↔ Js.truthy (env !! "GITHUB_TOKEN") = false ∧ Js.truthy (env !! "GH_PAT") = false)
    as Htoken.
  { unfold ApiToken, Js.or_else.
    destruct (Js.truthy (env !! "GITHUB_TOKEN")) eqn:Hfirst; [|by split; [|intros []]].
    rewrite Hfirst. split; [done|by intros []]. }
  split_and!.
  - rewrite <- Htoken. by destruct (Js.truthy (ApiToken env)).
  - unfold run. by destruct (Js.truthy (ApiToken env)).
  - by destruct (Js.truthy (ApiToken env)).
Qed.

End RunRequests.

(** ** The resolved input *)

Section ResolvedInput.

Implicit Types (env : Env) (input : UserInput) (s : string).

Lemma join_cons_head (d : string) a seg segs :
  Js.join d (String a seg :: segs) = String a (Js.join d (seg :: segs)).
Proof. by destruct segs. Qed.

(** Joining undoes splitting. *)
Lemma join_split c s : Js.join (String c "") (Js.split c s) = s.
Proof.
  induction s as [|a s IH]; [done|]. simpl. case_decide as Ha.
  - subst a. rewrite join_cons by apply split_nonempty. by rewrite IH.
  - destruct (Js.split c s) as [|seg segs] eqn:Hs; [by apply split_nonempty in Hs|].
    by rewrite join_cons_head, IH.
Qed.

(** The first segment is empty for the empty string and for a string that
    starts with the separator, and only then. *)
Lemma split_head_empty c s :
  Js.split c s !! 0%nat = Some "" ↔ s = "" ∨ Js.startsWith s (String c "") = true.
Proof.
  destruct s as [|a s]; simpl; [by split; [left|]|].
  destruct (decide (a = c)) as [->|Ha].
  - rewrite decide_True by done. split; [intros _; right; by destruct s|done].
  - rewrite (decide_False (P := c = a)) by (by intros ->).
    destruct (Js.split c s); simpl; (split; [done|by intros [|]]).
Qed.

Lemma truthy_default o : Js.truthy o = true → default "" o ≠ "".
Proof. by intros (c & -> & ?)%truthy_inv. Qed.

(** X9. Every request that input resolution returns has a non-empty name,
    variant, owner and template repository name; the owner is
    GITHUB_REPOSITORY_OWNER unless that is unset or empty, and the template
    repository is the default one unless TEMPLATE_REPO_NAME is set and not
    empty. *)
Theorem getInput_resolved env input :
  getInput env = Return input →
  (repoName input ≠ "" ∧ env !! "REPO_NAME" = Some (repoName input))
  ∧ (repoType input ≠ "" ∧ env !! "REPO_TYPE" = Some (repoType input))
  ∧ repoOwner input ≠ ""
  ∧ Some (repoOwner input)
    = (if Js.truthy (env !! "GITHUB_REPOSITORY_OWNER") then env !! "GITHUB_REPOSITORY_OWNER"
       else env !! "REPO_OWNER")
  ∧ templateRepoName input ≠ ""
  ∧ templateRepoName input
    = (if Js.truthy (env !! "TEMPLATE_REPO_NAME") then default "" (env !! "TEMPLATE_REPO_NAME")
       else "Blog-GitHub-API-Automation-Template")
  ∧ repoDescription input = env !! "REPO_DESCRIPTION".
Proof.
  unfold getInput.
  destruct (Js.truthy (env !! "REPO_NAME")) eqn:Hname; [|done].
  destruct (Js.truthy (env !! "REPO_TEAM")) eqn:Hteam; [|done].
  destruct (Js.truthy (env !! "REPO_TYPE")) eqn:Htype; [|done].
  destruct (Js.truthy (Js.or_else _ _)) eqn:Howner; [|done].
  simpl. intros [= <-]. simpl.
  pose proof (truthy_inv _ Hname) as (n & Hn & ?).
  pose proof (truthy_inv _ Htype) as (t & Ht & ?).
  pose proof (truthy_inv _ Howner) as (o & Ho & ?).
  rewrite Hn, Ht, Ho. simpl. split_and!; try done.
  - unfold Js.or_else. destruct (Js.truthy (env !! "TEMPLATE_REPO_NAME")) eqn:Htpl; [|done].
    by apply truthy_default.
  - unfold Js.or_else. by destruct (Js.truthy (env !! "TEMPLATE_REPO_NAME")).
Qed.

(** X10. The topics of the request are REPO_TOPICS cut at its commas and
    nothing more: the list is never empty, no topic holds a comma, and joining
    the topics with commas gives REPO_TOPICS back.  The test on the topics
    fails exactly when REPO_TOPICS is unset, empty, or starts with a comma. *)
Theorem getInput_topics env input :
  getInput env = Return input →
  (env !! "REPO_TOPICS" = None → repoTopics input = None)
  ∧ (∀ s, env !! "REPO_TOPICS" = Some s →
       ∃ topics, repoTopics input = Some topics
                 ∧ topics ≠ []
                 ∧ Forall (λ t, occurs "," t = false) topics
                 ∧ Js.join "," topics = s)
  ∧ (topicsProvided input = false
     ↔ env !! "REPO_TOPICS" = None
       ∨ env !! "REPO_TOPICS" = Some ""
       ∨ ∃ s, env !! "REPO_TOPICS" = Some s ∧ Js.startsWith s "," = true).
Proof.
  intros (_ & _ & _ & _ & _ & Htopics)%getInput_Return.
  unfold topicsProvided. rewrite Htopics.
  destruct (env !! "REPO_TOPICS") as [s|]; simpl.
  - split_and!; [done| |].
    + intros ? [= <-]. eexists. split_and!; [done|apply split_nonempty| |apply join_split].
      apply split_all_free.
    + rewrite negb_false_iff, bool_decide_eq_true, split_head_empty. split.
      * intros [->|Hstart]; [by right; left|]. right. right. by exists s.
      * intros [|[[= ->]|(s' & [= <-] & Hstart)]]; [done|by left|by right].
  - split_and!; [done..|]. split; [by left|done].
Qed.

End ResolvedInput.

(** ** The paths of the rendered files *)

Section RenderedPaths.

Context (P : Platform).

Implicit Types (f : GetContentsData) (input : UserInput) (w : World).

Lemma getNewFilename_component b : component b → component (getNewFilename b).
Proof.
  intros Hb. unfold getNewFilename. repeat case_decide; [by repeat split..|done].
Qed.

Lemma rendered_name_component b : component b → component (rendered_name b).
Proof.
  intros Hb. unfold rendered_name.
  destruct (Js.endsWith b ".njk"); [by apply getNewFilename_component|done].
Qed.

(** A path ends with [.njk] exactly when its last component does. *)
Lemma endsWith_njk_last d b :
  Forall component d → component b →
  Js.endsWith (Js.join "/" (d ++ [b])) ".njk" = Js.endsWith b ".njk".
Proof.
  intros Hd Hb. destruct (rename_last_component d b b Hd Hb Hb) as [Hbase _].
  destruct (Js.endsWith (Js.join "/" (d ++ [b])) ".njk") eqn:Hend.
  - destruct (basename_suffix (Js.join "/" (d ++ [b])) ".njk") as [Hb' _]; [done..|].
    by rewrite Hbase in Hb'.
  - destruct (Js.endsWith b ".njk") eqn:Hend'; [|done].
    apply endsWith_inv in Hend' as [y ->].
    destruct (join_snoc_prefix d (y +:+ ".njk")) as (x & Hx & _).
    by rewrite Hx, <- sapp_assoc, endsWith_app in Hend.
Qed.

(** Where the renderer puts a file whose path is made of components. *)
Lemma renderFileData_path f input w d b out :
  Forall component d → component b →
  entry_path f = Js.join "/" (d ++ [b]) →
  (renderFileData P f input w).1 = Return (Some out) →
  out_path out = Js.join "/" (d ++ [rendered_name b]).
Proof.
  intros Hd Hb Hpath Hout.
  pose proof (renderFileData_Some P input f w out Hout) as (c & Hc & Hne)%truthy_inv.
  pose proof (endsWith_njk_last d b Hd Hb) as Hend. rewrite <- Hpath in Hend.
  unfold rendered_name. rewrite <- Hend.
  destruct (Js.endsWith (entry_path f) ".njk") eqn:Hnjk.
  - rewrite (renderFileData_template P f input w c) in Hout by done.
    destruct (renderString P (decodeBase64 P c) input) as [r|e]; [|done].
    injection Hout as <-. simpl. rewrite Hpath.
    destruct (rename_last_component d b (getNewFilename b)) as [-> ->];
      [done..|by apply getNewFilename_component|done].
  - rewrite (renderFileData_plain P f input w c) in Hout by done.
    by injection Hout as <-.
Qed.

(** X11. The renderer keeps every file in its directory: for a path made of
    components only the last one may change, to the name the rename table
    gives it when it ends with [.njk]; the directory of the variant is not
    stripped. *)
Theorem renderFileData_keeps_directory f input w d b out :
  Forall component d → component b →
  entry_path f = Js.join "/" (d ++ [b]) →
  (renderFileData P f input w).1 = Return (Some out) →
  out_path out = Js.join "/" (d ++ [rendered_name b])
  ∧ Path.dirname (out_path out) = Path.dirname (entry_path f).
Proof.
  intros Hd Hb Hpath Hout.
  pose proof (renderFileData_path f input w d b out Hd Hb Hpath Hout) as Hout_path.
  split; [done|]. rewrite Hout_path, Hpath.
  by rewrite !dirname_components by (done || by apply rendered_name_component).
Qed.

Lemma join_last_inj d a b :
  Forall component d → component a → component b →
  Js.join "/" (d ++ [a]) = Js.join "/" (d ++ [b]) → a = b.
Proof.
  intros Hd Ha Hb Heq. apply (f_equal (Js.split "/")) in Heq.
  rewrite !split_join in Heq.
  - by apply app_inv_head in Heq as [= ->].
  - apply Forall_app_2; [|by apply Forall_singleton, component_free].
    eapply Forall_impl; [done|]. apply component_free.
  - by destruct d.
  - apply Forall_app_2; [|by apply Forall_singleton, component_free].
    eapply Forall_impl; [done|]. apply component_free.
  - by destruct d.
Qed.

(** X12. The rename table makes two files meet: in one directory a template
    [README.njk] and a plain [README.md], or [package.njk] and
    [package.json], are rendered to the same path. *)
Theorem rendered_paths_collide f1 f2 input w d out1 out2 :
  Forall component d →
  (entry_path f1 = Js.join "/" (d ++ ["README.njk"])
   ∧ entry_path f2 = Js.join "/" (d ++ ["README.md"])
   ∨ entry_path f1 = Js.join "/" (d ++ ["package.njk"])
     ∧ entry_path f2 = Js.join "/" (d ++ ["package.json"])) →
  (renderFileData P f1 input w).1 = Return (Some out1) →
  (renderFileData P f2 input w).1 = Return (Some out2) →
  entry_path f1 ≠ entry_path f2 ∧ out_path out1 = out_path out2.
Proof.
  intros Hd Hpaths Hout1 Hout2.
  destruct Hpaths as [[Hp1 Hp2]|[Hp1 Hp2]].
  - split.
    + rewrite Hp1, Hp2. intros Heq. by apply join_last_inj in Heq.
    + rewrite (renderFileData_path f1 input w d "README.njk" out1) by done.
      by rewrite (renderFileData_path f2 input w d "README.md" out2).
  - split.
    + rewrite Hp1, Hp2. intros Heq. by apply join_last_inj in Heq.
    + rewrite (renderFileData_path f1 input w d "package.njk" out1) by done.
      by rewrite (renderFileData_path f2 input w d "package.json" out2).
Qed.

End RenderedPaths.

(** ** The directory of the variant *)

Section VariantDirectory.

Implicit Types (input : UserInput) (n : TreeNode) (s t dir rest : string).

Lemma lower_ascii_idemp c : Js.lower_ascii (Js.lower_ascii c) = Js.lower_ascii c.
Proof. by destruct c as [[] [] [] [] [] [] [] []]. Qed.

Lemma startsWith_inv s pre : Js.startsWith s pre = true → ∃ rest, s = pre +:+ rest.
Proof.
  revert s. induction pre as [|a pre IH]; intros s; [by exists s|].
  destruct s as [|b s]; [done|]. simpl. case_decide as Hab; [|done]. subst b.
  intros [rest ->]%IH. by exists rest.
Qed.

(** A directory name that is followed by a slash where a lower-cased text is
    followed by one is in lower case itself. *)
Lemma lowercase_directory dir : ∀ t rest rest',
  occurs "/" dir = false →
  dir +:+ "/" +:+ rest = Js.toLowerCase t +:+ "/" +:+ rest' →
  Js.toLowerCase dir = dir.
Proof.
  induction dir as [|a dir IH]; intros t rest rest' Hfree Heq; [done|].
  simpl in Hfree. apply orb_false_elim in Hfree as [Ha Hfree].
  apply bool_decide_eq_false in Ha.
  destruct t as [|b t]; simpl in Heq.
  - rewrite sapp_cons in Heq. by injection Heq as -> _.
  - rewrite !sapp_cons in Heq. injection Heq as -> Heq. simpl.
    by rewrite lower_ascii_idemp, (IH t rest rest').
Qed.

(** X13. The blobs of a directory whose name has an upper-case letter are
    never fetched, whatever REPO_TYPE is: the variant is lower-cased before
    it is compared with the paths of the tree, and the paths are not. *)
Theorem uppercase_directory_never_fetched input n dir rest :
  node_path n = Some (dir +:+ "/" +:+ rest) →
  occurs "/" dir = false →
  Js.toLowerCase dir ≠ dir →
  inTemplateDir input n = false.
Proof.
  intros Hpath Hfree Hupper.
  destruct (inTemplateDir input n) eqn:Hin; [|done]. exfalso.
  apply inTemplateDir_inv in Hin as (_ & p & Hp & Hstart).
  rewrite Hpath in Hp. injection Hp as <-.
  apply startsWith_inv in Hstart as [rest' Heq]. rewrite sapp_assoc in Heq.
  by apply Hupper, (lowercase_directory dir (repoType input) rest rest').
Qed.

End VariantDirectory.

(** ** The earlier fetcher *)

Section DraftFetcher.

Context (P : Draft.Platform).

Implicit Types (input : Draft.UserInput) (w : Draft.World).

Lemma draft_decodeFiles input filesData : ∀ acc files,
  Draft.decodeFiles P input filesData acc = Return files →
  ∃ fs, files = acc ++ fs
        ∧ Forall2 (Draft.decoded_from P input)
            (filter (λ f, Draft.kept f = true) filesData) fs.
Proof.
  induction filesData as [|f rest IH]; intros acc files; simpl.
  { intros [= <-]. exists []. by rewrite app_nil_r. }
  unfold Draft.kept at 1. case_bool_decide as Htype; simpl.
  2:{ rewrite filter_cons_False by (unfold Draft.kept; by rewrite bool_decide_eq_false_2).
      apply IH. }
  destruct (Js.truthy (entry_content f)) eqn:Hc.
  2:{ rewrite andb_false_r.
      rewrite filter_cons_False
        by (unfold Draft.kept; by rewrite Hc, andb_false_r). apply IH. }
  rewrite filter_cons_True by (unfold Draft.kept; by rewrite Hc, bool_decide_eq_true_2).
  apply truthy_inv in Hc as (c & Hc & Hne). rewrite Hc, andb_true_r. simpl.
  destruct (Js.endsWith (entry_path f) ".njk") eqn:Hend.
  - destruct (Draft.renderString P (Draft.decodeBase64 P c) input) as [r|e] eqn:Hr;
      [|done].
    intros (fs & -> & Hfs)%IH. eexists (_ :: fs). rewrite <- app_assoc.
    split; [done|]. constructor; [|done]. split; [done|]. exists c. by rewrite Hend.
  - intros (fs & -> & Hfs)%IH. eexists (_ :: fs). rewrite <- app_assoc.
    split; [done|]. constructor; [|done]. split; [done|]. exists c. by rewrite Hend.
Qed.

(** X14. When the earlier fetcher returns, the directory was listed with the
    status 200 (a failed listing is not turned into an empty result), and the
    files returned are, in the order of the listing, the entries that are
    files with content, each under its own path: the earlier version renames
    nothing, a template keeps its [.njk] name. *)
Theorem draft_getTemplateFiles_keeps_paths input w files w' :
  Draft.getTemplateFiles P input w = (Return files, w') →
  ∃ filesData,
    Draft.api_getContent P (Draft.events w) (Draft.repoOwner input)
      "Blog-GitHub-API-Automation-Template" (Js.toLowerCase (Draft.repoType input))
    = Return (200, filesData)
    ∧ Forall2 (Draft.decoded_from P input)
        (filter (λ f, Draft.kept f = true) filesData) files
    ∧ Draft.path <$> files
      = entry_path <$> filter (λ f, Draft.kept f = true) filesData.
Proof.
  unfold Draft.getTemplateFiles.
  destruct (Draft.api_getContent P _ _ _ _) as [[status filesData]|e]; [|done].
  case_bool_decide as Hstatus; [|done]. subst status. simpl.
  intros [= Hfiles _]. apply draft_decodeFiles in Hfiles as (fs & -> & Hfs).
  exists filesData. split_and!; [done..|]. simpl.
  revert Hfs. generalize (filter (λ f, Draft.kept f = true) filesData). intros l Hfs.
  induction Hfs as [|f out ?? [Hpath _] _ IH]; [done|].
  rewrite !fmap_cons. by rewrite Hpath, IH.
Qed.

End DraftFetcher.

(** ** The further properties on the sample platform *)

Lemma getTemplateFiles_requests_witness :
  ∃ answers,
    events (getTemplateFiles Sample.platform Sample.input initial).2
    = rev (GetTree "liatrio" "Blog-GitHub-API-Automation-Template" "main"
             (Return (200, Sample.listing))
           :: zip_with (fetch_of Sample.input)
                [ Sample.blob "bun/README.njk"; Sample.blob "bun/package.njk";
                  Sample.blob "bun/src/index.ts"; Sample.blob "bun/LICENSE";
                  Sample.blob "bun/.gitkeep" ] answers)
    ∧ length answers = 5%nat
    ∧ Forall (fetched_fine Sample.platform Sample.input) answers.
Proof.
  destruct (getTemplateFiles_requests Sample.platform Sample.input initial)
    as (answers & Hev & _ & Hok & _).
  exists answers. split.
  - rewrite Hev. apply app_nil_r.
  - apply (Hok [ {| out_path := "bun/README.md"; out_content := "# foo" |};
                 {| out_path := "bun/package.json"; out_content := "{name: foo}" |};
                 {| out_path := "bun/src/index.ts"; out_content := "console.log(1)" |};
                 {| out_path := "bun/LICENSE"; out_content := "MIT" |} ]).
    vm_compute. reflexivity.
Defined.

(** On the platform that lost a file the fetch stops at the third content
    request, which is the one that threw. *)
Example getTemplateFiles_stops_at_missing_file :
  ∃ fine,
    events (getTemplateFiles Sample.missingFile Sample.input initial).2
    = rev (GetTree "liatrio" "Blog-GitHub-API-Automation-Template" "main"
             (Return (200, Sample.listing))
           :: zip_with (fetch_of Sample.input)
                [ Sample.blob "bun/README.njk"; Sample.blob "bun/package.njk";
                  Sample.blob "bun/src/index.ts" ]
                (fine ++ [Throw (RequestError 404 "Not Found")]))
    ∧ length fine = 2%nat.
Proof. eexists [_; _]. split; [vm_compute; reflexivity|reflexivity]. Qed.

Lemma template_error_empties_fetch_witness :
  (getTemplateFiles Sample.platform Sample.input_elysia initial).1 = Return [].
Proof.
  apply (template_error_empties_fetch Sample.platform Sample.input_elysia initial
           (events (getTemplateFiles Sample.platform Sample.input_elysia initial).2)
           "liatrio" "Blog-GitHub-API-Automation-Template" "elysia/README.njk" 200
           (Sample.fileEntry "elysia/README.njk" (Some "eyUgYmFkICV9"))
           "eyUgYmFkICV9" (TemplateError "unknown block tag")).
  - symmetry. apply app_nil_r.
  - vm_compute. apply list_elem_of_here.
  - reflexivity.
  - discriminate.
  - reflexivity.
  - reflexivity.
Defined.

Example addFiles_two_files :
  events (addFiles Sample.platform Sample.input
            [ {| out_path := "bun/README.md"; out_content := "# foo" |};
              {| out_path := "bun/LICENSE"; out_content := "MIT" |} ] [] initial).2
  = [ CreateOrUpdateFileContents "feat: added bun/LICENSE from template repo" "TUlU"
        "bun/LICENSE" "foo" "liatrio" (Return 201);
      CreateOrUpdateFileContents "feat: added bun/README.md from template repo" "IyBmb28="
        "bun/README.md" "foo" "liatrio" (Return 201) ].
Proof. vm_compute. reflexivity. Qed.

Lemma run_phases_witness :
  ∃ fetches writes,
    rev (events (run Sample.platform Sample.env).2)
    = CreateInOrg "foo" "liatrio" None (Return 201) :: fetches ++ writes
    ∧ Forall (λ ev, is_fetch ev = true) fetches
    ∧ Forall (λ ev, is_write ev = true) writes.
Proof.
  destruct (run_phases Sample.platform Sample.env Sample.input (Some "Platform")
              eq_refl sample_getInput eq_refl)
    as (topics & fetches & writes & Hev & Htopics & Hf & Hw).
  destruct Htopics as [->|[Hguard _]]; [|discriminate Hguard].
  exists fetches, writes. split; [exact Hev|]. split; [exact Hf|exact Hw].
Defined.

Lemma failure_stops_run_witness :
  events (run Sample.refusing Sample.env).2
  = [CreateInOrg "foo" "liatrio" None
       (Throw (RequestError 422 "name already exists on this account"))].
Proof.
  apply (proj1 (failure_stops_run Sample.refusing Sample.env Sample.input
                  (Some "Platform") eq_refl sample_getInput eq_refl)
           (RequestError 422 "name already exists on this account")).
  reflexivity.
Defined.

Lemma failed_fetch_no_write_witness :
  Forall (λ ev, is_write ev = false) (events (run Sample.missingFile Sample.env).2)
  ∧ Exists (λ ev, is_creation ev = true) (events (run Sample.missingFile Sample.env).2)
  ∧ (run Sample.missingFile Sample.env).1 = 0.
Proof.
  apply (failed_fetch_no_write Sample.missingFile Sample.env Sample.input
           (Some "Platform") eq_refl sample_getInput eq_refl).
  vm_compute. apply Exists_cons_hd. reflexivity.
Defined.

Lemma unknown_team_no_request_witness :
  events (run Sample.platform Sample.env_marketing).2 = [].
Proof.
  destruct (getInput Sample.env_marketing) as [input|e] eqn:Hinput;
    [|vm_compute in Hinput; discriminate Hinput].
  apply (proj2 (unknown_team_no_request Sample.platform Sample.env_marketing input
                  eq_refl Hinput)).
  vm_compute in Hinput. injection Hinput as <-. reflexivity.
Defined.

Lemma exit_code_tells_token_witness :
  (run Sample.platform (delete "GH_PAT" Sample.env)).1 = 1.
Proof.
  apply (proj1 (exit_code_tells_token Sample.platform (delete "GH_PAT" Sample.env))).
  split; reflexivity.
Defined.

Lemma getInput_resolved_witness :
  repoName Sample.input ≠ "" ∧ repoType Sample.input ≠ "" ∧ repoOwner Sample.input ≠ ""
  ∧ templateRepoName Sample.input = "Blog-GitHub-API-Automation-Template".
Proof.
  destruct (getInput_resolved Sample.env Sample.input sample_getInput)
    as ([Hname _] & [Htype _] & Howner & _ & _ & Htemplate & _).
  split; [exact Hname|]. split; [exact Htype|]. split; [exact Howner|exact Htemplate].
Defined.

Lemma getInput_topics_witness :
  ∃ input topics,
    getInput Sample.env_topics = Return input
    ∧ repoTopics input = Some topics
    ∧ Js.join "," topics = "bun,starter".
Proof.
  destruct (getInput Sample.env_topics) as [input|e] eqn:Hinput;
    [|vm_compute in Hinput; discriminate Hinput].
  destruct (proj1 (proj2 (getInput_topics Sample.env_topics input Hinput))
              "bun,starter" eq_refl) as (topics & Htopics & _ & _ & Hjoin).
  exists input, topics. split; [reflexivity|]. split; [exact Htopics|exact Hjoin].
Defined.

Lemma component_README_njk : component "README.njk".
Proof. repeat split; discriminate. Defined.

Lemma renderFileData_keeps_directory_witness :
  Path.dirname "bun/README.md" = Path.dirname "bun/README.njk".
Proof.
  apply (proj2 (renderFileData_keeps_directory Sample.platform
                  (Sample.fileEntry "bun/README.njk" (Some "IyB7eyByZXBvTmFtZSB9fQ=="))
                  Sample.input initial ["bun"] "README.njk"
                  {| out_path := "bun/README.md"; out_content := "# foo" |}
                  component_bun component_README_njk eq_refl eq_refl)).
Defined.

Lemma rendered_paths_collide_witness :
  Sample.fileEntry "bun/README.njk" (Some "IyB7eyByZXBvTmFtZSB9fQ==")
  ≠ Sample.fileEntry "bun/README.md" (Some "TUlU")
  ∧ out_path {| out_path := "bun/README.md"; out_content := "# foo" |}
    = out_path {| out_path := "bun/README.md"; out_content := "MIT" |}.
Proof.
  destruct (rendered_paths_collide Sample.platform
              (Sample.fileEntry "bun/README.njk" (Some "IyB7eyByZXBvTmFtZSB9fQ=="))
              (Sample.fileEntry "bun/README.md" (Some "TUlU"))
              Sample.input initial ["bun"]
              {| out_path := "bun/README.md"; out_content := "# foo" |}
              {| out_path := "bun/README.md"; out_content := "MIT" |}
              component_bun (or_introl (conj eq_refl eq_refl)) eq_refl eq_refl)
    as [Hdiff Hsame].
  split; [|exact Hsame]. intros Heq. apply Hdiff. exact (f_equal entry_path Heq).
Defined.

Lemma uppercase_directory_never_fetched_witness :
  inTemplateDir Sample.input (Sample.blob "Bun/README.njk") = false.
Proof.
  apply (uppercase_directory_never_fetched Sample.input (Sample.blob "Bun/README.njk")
           "Bun" "README.njk" eq_refl eq_refl).
  discriminate.
Defined.

Lemma draft_getTemplateFiles_keeps_paths_witness :
  Draft.path <$> [ {| Draft.path := "bun/README.njk"; Draft.content := "# foo" |};
                  {| Draft.path := "bun/LICENSE"; Draft.content := "MIT" |} ]
  = entry_path <$> filter (λ f, Draft.kept f = true) Sample.directory.
Proof.
  destruct (draft_getTemplateFiles_keeps_paths Sample.draftPlatform Sample.draftInput
              {| Draft.events := []; Draft.console := [] |}
              [ {| Draft.path := "bun/README.njk"; Draft.content := "# foo" |};
                {| Draft.path := "bun/LICENSE"; Draft.content := "MIT" |} ]
              (Draft.getTemplateFiles Sample.draftPlatform Sample.draftInput
                 {| Draft.events := []; Draft.console := [] |}).2
              ltac:(vm_compute; reflexivity))
    as (filesData & Hlisting & _ & Hpaths).
  injection Hlisting as <-. exact Hpaths.
Defined.
